(** * Domain monitor: availability checking and state transitions

    A shallow embedding of [database.py], [checker.py] and the normaliser and
    command handlers of [bot.py], with the properties of the checking engine
    and of the commands proved over it.

    Conventions of the embedding.
    - A Python [str] is a [string]; the model covers the ASCII range, where
      [str.lower], [str.strip] and SQLite's [lower()] act on single bytes.
    - A Python [int] is a [Z]; [Optional[T]] is [option T]; SQL [NULL] is
      [None].
    - A table is the list of its rows in rowid order, with the last key that
      [AUTOINCREMENT] handed out kept beside it.
    - [datetime.utcnow().isoformat()] is a [timestamp]: an integer instant.
      SQLite compares the ISO-8601 text byte-wise, which orders the texts like
      the instants they denote.
    - Every reading of the clock and every answer of the network is an input,
      supplied by an environment record. *)

From Stdlib Require Import ZArith List String Ascii Bool Lia Arith.
From Stdlib Require Import Numbers.DecimalString Numbers.DecimalPos Numbers.DecimalZ.
From Stdlib Require Import Sorting.Sorted Sorting.Permutation.
From Stdlib Require Numbers.DecimalFacts.
Import ListNotations.

Open Scope string_scope.
Open Scope Z_scope.

(* ================================================================== *)
(** ** Python string operations *)
(* ================================================================== *)

Module PyStr.

(** [str.isspace] on one ASCII character: TAB, LF, VT, FF, CR, the four
    separators FS..US and the space.  Outside ASCII Python has more
    whitespace (U+0085, U+00A0, U+2000 and on); the model says nothing of
    such text, and a statement about what [strip] computes is made of ASCII
    strings only. *)
Definition isspace (c : ascii) : bool :=
  let n := nat_of_ascii c in
  ((9 <=? n) && (n <=? 13) || (28 <=? n) && (n <=? 32))%nat.

Definition isupper (c : ascii) : bool :=
  let n := nat_of_ascii c in ((65 <=? n) && (n <=? 90))%nat.

Definition lower_char (c : ascii) : ascii :=
  if isupper c then ascii_of_nat (nat_of_ascii c + 32) else c.

(** [s.lower()] of an ASCII string: the letters [A] to [Z] are lowered.
    ([str.lower] also lowers letters outside ASCII; a statement about what
    [lower] computes is made of ASCII strings only.) *)
Fixpoint lower (s : string) : string :=
  match s with
  | EmptyString => EmptyString
  | String c r => String (lower_char c) (lower r)
  end.

(** [s.lstrip(...)], by the predicate of the characters to remove. *)
Fixpoint lstrip_with (p : ascii -> bool) (s : string) : string :=
  match s with
  | EmptyString => EmptyString
  | String c r => if p c then lstrip_with p r else s
  end.

(** [s.rstrip(...)] *)
Fixpoint rstrip_with (p : ascii -> bool) (s : string) : string :=
  match s with
  | EmptyString => EmptyString
  | String c r =>
      match rstrip_with p r with
      | EmptyString => if p c then EmptyString else String c EmptyString
      | r' => String c r'
      end
  end.

Definition strip_with (p : ascii -> bool) (s : string) : string :=
  rstrip_with p (lstrip_with p s).

(** [c in chars] *)
Fixpoint mem (c : ascii) (chars : string) : bool :=
  match chars with
  | EmptyString => false
  | String d r => Ascii.eqb c d || mem c r
  end.

(** [s.strip()] removes surrounding whitespace. *)
Definition strip (s : string) : string := strip_with isspace s.

(** [s.strip(chars)] removes surrounding characters of [chars]. *)
Definition strip_chars (chars : string) (s : string) : string :=
  strip_with (fun c => mem c chars) s.

(** [s.startswith(p)] *)
Definition startswith (p s : string) : bool := String.prefix p s.

(** The slice [s[n:]]. *)
Fixpoint slice_from (n : nat) (s : string) : string :=
  match n, s with
  | O, _ => s
  | S _, EmptyString => EmptyString
  | S k, String _ r => slice_from k r
  end.

(** [str(n)] of an integer: decimal digits, with a sign when negative. *)
Definition str_of_int (n : Z) : string :=
  NilZero.string_of_int (Z.to_int n).

(** Truth value of an optional string: [None] and [""] are false. *)
Definition truthy (v : option string) : bool :=
  match v with
  | None => false
  | Some EmptyString => false
  | Some _ => true
  end.

(** [v or default] *)
Definition or_default (v : option string) (default : string) : string :=
  match v with
  | Some (String c r) => String c r
  | _ => default
  end.

End PyStr.

(* ================================================================== *)
(** ** database.py *)
(* ================================================================== *)

Definition timestamp := Z.

(** A row of [domains].  The schema also has an [is_active] column; no
    statement of the program reads or writes it, so it is left out.  The same
    record is the [dict(row)] the queries return. *)
Record DomainRow := mkDomain {
  d_id : Z;
  d_name : string;
  d_last_status : option string;
  d_last_error : option string;
  d_last_checked : option timestamp
}.

(** A row of [proxies].  [is_active] only ever holds 0 or 1. *)
Record ProxyRow := mkProxy {
  p_id : Z;
  p_host : string;
  p_port : Z;
  p_username : option string;
  p_password : option string;
  p_country : option string;
  p_is_active : bool;
  p_created_at : timestamp
}.

(** A row of [check_logs]. *)
Record CheckLog := mkCheckLog {
  l_id : Z;
  l_domain_id : Z;
  l_checked_at : timestamp;
  l_status : string;
  l_error : option string
}.

(** A row of [subscribers]. *)
Record Subscriber := mkSubscriber {
  s_chat_id : Z;
  s_added_at : timestamp
}.

(** The database file: four tables, and the [sqlite_sequence] counters of the
    three [AUTOINCREMENT] keys. *)
Record Store := mkStore {
  domains : list DomainRow;
  domains_seq : Z;
  proxies : list ProxyRow;
  proxies_seq : Z;
  check_logs : list CheckLog;
  check_logs_seq : Z;
  subscribers : list Subscriber
}.

Definition empty_store : Store := mkStore [] 0 [] 0 [] 0 [].

Definition set_domains (f : list DomainRow -> list DomainRow) (st : Store) : Store :=
  mkStore (f (domains st)) (domains_seq st) (proxies st) (proxies_seq st)
          (check_logs st) (check_logs_seq st) (subscribers st).

Definition set_proxies (f : list ProxyRow -> list ProxyRow) (st : Store) : Store :=
  mkStore (domains st) (domains_seq st) (f (proxies st)) (proxies_seq st)
          (check_logs st) (check_logs_seq st) (subscribers st).

Definition set_active (b : bool) (r : ProxyRow) : ProxyRow :=
  mkProxy (p_id r) (p_host r) (p_port r) (p_username r) (p_password r)
          (p_country r) b (p_created_at r).

(** SQL helpers. *)
Module Sql.

(** [ORDER BY ... LIMIT 1]: a row that no other row precedes, where
    [before a b] says that [a] sorts strictly before [b].  SQL leaves the
    choice among ties open; the model keeps the one met first. *)
Fixpoint first_by {A} (before : A -> A -> bool) (rows : list A) : option A :=
  match rows with
  | [] => None
  | r :: rest =>
      match first_by before rest with
      | None => Some r
      | Some r' => if before r' r then Some r' else Some r
      end
  end.

(** [ORDER BY key]: insertion of a row into a sorted list, after the rows
    it does not precede. *)
Fixpoint insert_by {A} (le : A -> A -> bool) (x : A) (rows : list A) : list A :=
  match rows with
  | [] => [x]
  | r :: rest => if le r x then r :: insert_by le x rest else x :: rows
  end.

Definition order_by {A} (le : A -> A -> bool) (rows : list A) : list A :=
  fold_left (fun acc r => insert_by le r acc) rows [].

End Sql.

Module Database.

(** [Database._normalize_domain] *)
Definition _normalize_domain (name : string) : string :=
  let value := PyStr.lower (PyStr.strip name) in
  let value :=
    if PyStr.startswith "http://" value then PyStr.slice_from 7 value
    else if PyStr.startswith "https://" value then PyStr.slice_from 8 value
    else value in
  PyStr.strip_chars "/" value.

(** [add_domain]: [INSERT OR IGNORE INTO domains(name, last_status)
    VALUES(?, 'unknown')]; [name] is [UNIQUE].  SQLite takes the next key
    of [AUTOINCREMENT] before it meets the name, and a key taken is not
    given back: an insert that is ignored adds no row and moves the
    counter. *)
Definition add_domain (name : string) (st : Store) : Store :=
  let name := _normalize_domain name in
  let new_id := domains_seq st + 1 in
  mkStore
    (if existsb (fun r => String.eqb (d_name r) name) (domains st)
     then domains st
     else domains st ++ [mkDomain new_id name (Some "unknown") None None])
    new_id (proxies st) (proxies_seq st)
    (check_logs st) (check_logs_seq st) (subscribers st).

(** [remove_domain]: [DELETE FROM domains WHERE name = ?] on the normalized
    name; returns [cursor.rowcount > 0].  The schema declares
    [ON DELETE CASCADE] on [check_logs.domain_id]; SQLite applies it only on a
    connection where [PRAGMA foreign_keys] is on.  [foreign_keys] is that
    setting: SQLite has it off unless built otherwise, and the program never
    sets it. *)
Definition remove_domain (foreign_keys : bool) (name : string) (st : Store)
    : bool * Store :=
  let name := _normalize_domain name in
  let deleted := filter (fun r => String.eqb (d_name r) name) (domains st) in
  ((0 <? List.length deleted)%nat,
   mkStore (filter (fun r => negb (String.eqb (d_name r) name)) (domains st))
           (domains_seq st) (proxies st) (proxies_seq st)
           (if foreign_keys
            then filter (fun l =>
                           negb (existsb (fun r => d_id r =? l_domain_id l)
                                         deleted))
                        (check_logs st)
            else check_logs st)
           (check_logs_seq st) (subscribers st)).

(** [list_domains]: [SELECT ... FROM domains ORDER BY name] *)
Definition list_domains (st : Store) : list DomainRow :=
  Sql.order_by (fun a b => String.leb (d_name a) (d_name b)) (domains st).

(** [get_domain]: [SELECT ... FROM domains WHERE name = ?] on the
    normalized name, [fetchone]. *)
Definition get_domain (name : string) (st : Store) : option DomainRow :=
  find (fun r => String.eqb (d_name r) (_normalize_domain name)) (domains st).

(** [update_domain_status]: [UPDATE domains SET last_status = ?,
    last_error = ?, last_checked = ? WHERE id = ?] *)
Definition update_domain_status (now : timestamp) (domain_id : Z)
    (status : string) (error : option string) (st : Store) : Store :=
  set_domains
    (map (fun r =>
            if d_id r =? domain_id
            then mkDomain (d_id r) (d_name r) (Some status) error (Some now)
            else r)) st.

(** [log_check]: [INSERT INTO check_logs(domain_id, checked_at, status,
    error) VALUES(?, ?, ?, ?)] *)
Definition log_check (now : timestamp) (domain_id : Z)
    (status : string) (error : option string) (st : Store) : Store :=
  let new_id := check_logs_seq st + 1 in
  mkStore (domains st) (domains_seq st) (proxies st) (proxies_seq st)
          (check_logs st ++ [mkCheckLog new_id domain_id now status error])
          new_id (subscribers st).

(** [add_proxy]: [UPDATE proxies SET is_active = 0], then the [INSERT] of
    the new row with [is_active = 1]; returns [cursor.lastrowid]. *)
Definition add_proxy (now : timestamp) (host : string) (port : Z)
    (username password country : option string) (st : Store) : Z * Store :=
  let new_id := proxies_seq st + 1 in
  (new_id,
   mkStore (domains st) (domains_seq st)
           (map (set_active false) (proxies st)
              ++ [mkProxy new_id host port username password country true now])
           new_id
           (check_logs st) (check_logs_seq st) (subscribers st)).

(** [ORDER BY created_at DESC] *)
Definition newer (a b : ProxyRow) : bool := p_created_at b <? p_created_at a.

(** [remove_proxy]: [DELETE FROM proxies WHERE id = ?]; when a row went,
    [UPDATE proxies SET is_active = 1 WHERE id = (SELECT id FROM proxies
    ORDER BY created_at DESC LIMIT 1)]. *)
Definition remove_proxy (proxy_id : Z) (st : Store) : bool * Store :=
  let remaining := filter (fun r => negb (p_id r =? proxy_id)) (proxies st) in
  let rowcount := (List.length (proxies st) - List.length remaining)%nat in
  if (0 <? rowcount)%nat then
    let latest := option_map p_id (Sql.first_by newer remaining) in
    (true,
     set_proxies
       (fun _ =>
          map (fun r =>
                 match latest with
                 | Some i => if p_id r =? i then set_active true r else r
                 | None => r
                 end) remaining) st)
  else (false, st).

(** [list_proxies]: [SELECT ... FROM proxies ORDER BY created_at DESC] *)
Definition list_proxies (st : Store) : list ProxyRow :=
  Sql.order_by (fun a b => p_created_at b <=? p_created_at a) (proxies st).

(** [get_active_proxy]: [WHERE is_active = 1 ORDER BY created_at DESC
    LIMIT 1] *)
Definition get_active_proxy (st : Store) : option ProxyRow :=
  Sql.first_by newer (filter p_is_active (proxies st)).

(** [get_proxy_for_country]: [WHERE lower(country) = lower(?) ORDER BY
    is_active DESC, created_at DESC LIMIT 1]; a [NULL] country matches
    nothing. *)
Definition get_proxy_for_country (country : string) (st : Store)
    : option ProxyRow :=
  Sql.first_by
    (fun a b =>
       (p_is_active a && negb (p_is_active b))
       || (Bool.eqb (p_is_active a) (p_is_active b) && newer a b))
    (filter (fun r =>
               match p_country r with
               | Some c => String.eqb (PyStr.lower c) (PyStr.lower country)
               | None => false
               end) (proxies st)).

(** [add_subscriber]: [INSERT OR IGNORE INTO subscribers(chat_id,
    added_at)]; [chat_id] is the primary key, so the rows stay in its
    order. *)
Definition add_subscriber (now : timestamp) (chat_id : Z) (st : Store) : Store :=
  if existsb (fun s => s_chat_id s =? chat_id) (subscribers st) then st
  else
    mkStore (domains st) (domains_seq st) (proxies st) (proxies_seq st)
            (check_logs st) (check_logs_seq st)
            (Sql.insert_by (fun a b => s_chat_id a <=? s_chat_id b)
                           (mkSubscriber chat_id now) (subscribers st)).

(** [list_subscribers]: [SELECT chat_id FROM subscribers] *)
Definition list_subscribers (st : Store) : list Z :=
  map s_chat_id (subscribers st).

End Database.

Module BotService.

(** [BotService._normalize_domain] *)
Definition _normalize_domain (value : string) : string :=
  let text := PyStr.lower (PyStr.strip value) in
  let text :=
    if PyStr.startswith "http://" text then PyStr.slice_from 7 text
    else if PyStr.startswith "https://" text then PyStr.slice_from 8 text
    else text in
  PyStr.strip_chars "/" text.

End BotService.

(* ================================================================== *)
(** ** Exceptions *)
(* ================================================================== *)

(** The exception classes the handlers of [_perform_check] name, some of
    their subclasses in aiohttp, and classes outside those families. *)
Inductive exn_class :=
  | ValueError
  | OSError
  | CancelledError
  | SSLError                          (* ssl.SSLError *)
  | SSLCertVerificationError          (* ssl.CertificateError *)
  | AsyncioTimeoutError               (* asyncio.TimeoutError *)
  | ClientError
  | ClientResponseError
  | ClientConnectionError
  | ClientOSError
  | ClientConnectorError
  | ClientSSLError
  | ClientConnectorSSLError
  | ClientConnectorCertificateError
  | ServerConnectionError
  | ServerTimeoutError
  | InvalidURL
  | OtherClass (name : string).

(** An exception object: its class and its message. *)
Record exn := mkExn { exn_type : exn_class; exn_msg : string }.

Module PyExc.

(** Direct base classes, as the libraries declare them (the roots
    [Exception] and [BaseException] are left out).  From Python 3.11 on
    [asyncio.TimeoutError] is the built-in [TimeoutError], which has [OSError]
    above it; no clause of the program asks for [OSError], and the base is
    left out.  A class of aiohttp that is not listed behaves, for every
    clause, as the listed class above it. *)
Definition bases (c : exn_class) : list exn_class :=
  match c with
  | SSLError => [OSError]
  | SSLCertVerificationError => [SSLError; ValueError]
  | ClientResponseError => [ClientError]
  | ClientConnectionError => [ClientError]
  | ClientOSError => [ClientConnectionError; OSError]
  | ClientConnectorError => [ClientOSError]
  | ClientSSLError => [ClientConnectorError]
  | ClientConnectorSSLError => [ClientSSLError; SSLError]
  | ClientConnectorCertificateError => [ClientSSLError; SSLCertVerificationError]
  | ServerConnectionError => [ClientConnectionError]
  | ServerTimeoutError => [ServerConnectionError; AsyncioTimeoutError]
  | InvalidURL => [ClientError; ValueError]
  | _ => []
  end.

Definition class_eq_dec (a b : exn_class) : {a = b} + {a <> b}.
Proof. decide equality. apply string_dec. Defined.

Definition class_eqb (a b : exn_class) : bool :=
  if class_eq_dec a b then true else false.

(** [issubclass(c, d)], following [bases] to the given depth. *)
Fixpoint issubclass_upto (depth : nat) (c d : exn_class) : bool :=
  class_eqb c d
  || match depth with
     | O => false
     | S k => existsb (fun b => issubclass_upto k b d) (bases c)
     end.

(** No class above is more than six steps from a root. *)
Definition issubclass (c d : exn_class) : bool := issubclass_upto 6 c d.

(** [isinstance(e, d)] *)
Definition isinstance (e : exn) (d : exn_class) : bool :=
  issubclass (exn_type e) d.

(** [type(e).__name__] *)
Definition type_name (e : exn) : string :=
  match exn_type e with
  | ValueError => "ValueError"
  | OSError => "OSError"
  | CancelledError => "CancelledError"
  | SSLError => "SSLError"
  | SSLCertVerificationError => "SSLCertVerificationError"
  | AsyncioTimeoutError => "TimeoutError"
  | ClientError => "ClientError"
  | ClientResponseError => "ClientResponseError"
  | ClientConnectionError => "ClientConnectionError"
  | ClientOSError => "ClientOSError"
  | ClientConnectorError => "ClientConnectorError"
  | ClientSSLError => "ClientSSLError"
  | ClientConnectorSSLError => "ClientConnectorSSLError"
  | ClientConnectorCertificateError => "ClientConnectorCertificateError"
  | ServerConnectionError => "ServerConnectionError"
  | ServerTimeoutError => "ServerTimeoutError"
  | InvalidURL => "InvalidURL"
  | OtherClass name => name
  end.

End PyExc.

(* ================================================================== *)
(** ** The world the checker runs in *)
(* ================================================================== *)

(** What [session.get] gives: a response with its status code, or an
    exception. *)
Inductive http_result :=
  | Response (status : Z)
  | Failure (e : exn).

(** The inputs of a run: the [n]-th reading of the clock, the [n]-th draw of
    the random generator, and the answer to the [n]-th request, which may
    depend on the URL, the proxy and the user agent. *)
Record Env := mkEnv {
  clock : nat -> timestamp;
  random : nat -> nat;
  network : nat -> string -> option string -> string -> http_result
}.

(** What the program does to the outside, in order. *)
Inductive event :=
  | EvRequest (url : string) (proxy : option string) (user_agent : string)
  | EvUpdateStatus (domain_id : Z) (status : string) (error : option string)
  | EvLogCheck (domain_id : Z) (status : string) (error : option string)
  | EvNotifyDowntime (domain error : string)
  | EvNotifyRecovery (domain : string)
  | EvSend (chat_id : Z) (text : string).

Record World := mkWorld {
  db : Store;
  locked : bool;          (* [DomainChecker._lock] is held *)
  clock_reads : nat;
  draws : nat;
  requests : nat;
  trace : list event
}.

(** How a coroutine ends: with a value, with an exception, or never,
    waiting for the lock. *)
Inductive result (A : Type) :=
  | Returns (a : A)
  | Raises (e : exn)
  | Waits.
Arguments Returns {A} a.
Arguments Raises {A} e.
Arguments Waits {A}.

Definition M (A : Type) : Type := Env -> World -> result A * World.

Definition ret {A} (a : A) : M A := fun _ w => (Returns a, w).

Definition bind {A B} (m : M A) (k : A -> M B) : M B :=
  fun env w =>
    match m env w with
    | (Returns a, w') => k a env w'
    | (Raises e, w') => (Raises e, w')
    | (Waits, w') => (Waits, w')
    end.

Definition raise {A} (e : exn) : M A := fun _ w => (Raises e, w).

Notation "x <- m ;; k" := (bind m (fun x => k))
  (at level 61, m at next level, right associativity).
Notation "' pat <- m ;; k" := (bind m (fun x => match x with pat => k end))
  (at level 61, pat pattern, m at next level, right associativity).
Notation "m ;;; k" := (bind m (fun _ => k))
  (at level 61, right associativity).

(** [try: body except ...]: [handler e] is the clause that catches [e], if
    one does; an exception that no clause catches goes on. *)
Definition try_except {A} (body : M A) (handler : exn -> option (M A)) : M A :=
  fun env w =>
    match body env w with
    | (Raises e, w') =>
        match handler e with
        | Some h => h env w'
        | None => (Raises e, w')
        end
    | r => r
    end.

(** [for x in xs: body x] *)
Fixpoint for_each {A} (xs : list A) (body : A -> M unit) : M unit :=
  match xs with
  | [] => ret tt
  | x :: rest => body x ;;; for_each rest body
  end.

Definition query {A} (q : Store -> A) : M A := fun _ w => (Returns (q (db w)), w).

Definition execute (f : Store -> Store) : M unit :=
  fun _ w =>
    (Returns tt,
     mkWorld (f (db w)) (locked w) (clock_reads w) (draws w) (requests w) (trace w)).

Definition emit (e : event) : M unit :=
  fun _ w =>
    (Returns tt,
     mkWorld (db w) (locked w) (clock_reads w) (draws w) (requests w)
             (trace w ++ [e])).

(** [datetime.utcnow()] *)
Definition utcnow : M timestamp :=
  fun env w =>
    (Returns (clock env (clock_reads w)),
     mkWorld (db w) (locked w) (S (clock_reads w)) (draws w) (requests w) (trace w)).

Definition draw : M nat :=
  fun env w =>
    (Returns (random env (draws w)),
     mkWorld (db w) (locked w) (clock_reads w) (S (draws w)) (requests w) (trace w)).

Definition set_locked (b : bool) (w : World) : World :=
  mkWorld (db w) b (clock_reads w) (draws w) (requests w) (trace w).

(** [async with self._lock: body]: waits while the lock is held; releases
    it however the body ends. *)
Definition with_lock {A} (body : M A) : M A :=
  fun env w =>
    if locked w then (Waits, w)
    else
      match body env (set_locked true w) with
      | (Waits, w') => (Waits, w')
      | (r, w') => (r, set_locked false w')
      end.

(* ================================================================== *)
(** ** checker.py *)
(* ================================================================== *)

Module NotificationService.

(** [broadcast]: one [bot.send_message] per subscriber.  A delivery that
    fails is logged and skipped, so each is recorded as attempted. *)
Definition broadcast (message : string) : M unit :=
  chat_ids <- query Database.list_subscribers ;;
  for_each chat_ids (fun chat_id => emit (EvSend chat_id message)).

Definition newline : string := String (ascii_of_nat 10) EmptyString.

Definition downtime_text (domain error : string) : string :=
  "❌ <b>" ++ domain ++ "</b> недоступен" ++ newline
    ++ "Причина: <code>" ++ error ++ "</code>".

Definition recovery_text (domain : string) : string :=
  "✅ <b>" ++ domain ++ "</b> снова доступен".

(** [notify_downtime] *)
Definition notify_downtime (domain error : string) : M unit :=
  emit (EvNotifyDowntime domain error) ;;;
  broadcast (downtime_text domain error).

(** [notify_recovery] *)
Definition notify_recovery (domain : string) : M unit :=
  emit (EvNotifyRecovery domain) ;;;
  broadcast (recovery_text domain).

End NotificationService.

Module DomainChecker.

(** [random.choice(xs)] *)
Definition random_choice (xs : list string) : M string :=
  n <- draw ;; ret (nth (n mod List.length xs)%nat xs "").

(** [random.randint(a, b)] *)
Definition random_randint (a b : Z) : M Z :=
  n <- draw ;; ret (a + Z.of_nat n mod (b - a + 1)).

(** [_generate_user_agent] *)
Definition _generate_user_agent : M string :=
  browser <- random_choice ["Chrome"; "Firefox"; "Edge"; "Safari"] ;;
  v1 <- random_randint 60 120 ;;
  v2 <- random_randint 60 120 ;;
  v3 <- random_randint 60 120 ;;
  let version :=
    PyStr.str_of_int v1 ++ "." ++ PyStr.str_of_int v2 ++ "."
      ++ PyStr.str_of_int v3 in
  os <- random_choice
          ["Windows NT 10.0; Win64; x64";
           "Macintosh; Intel Mac OS X 10_15_7";
           "X11; Linux x86_64";
           "iPhone; CPU iPhone OS 16_0 like Mac OS X"] ;;
  ret ("Mozilla/5.0 (" ++ os ++ ") AppleWebKit/537.36 (KHTML, like Gecko) "
       ++ browser ++ "/" ++ version).

(** [_get_proxy] *)
Definition _get_proxy : M (option string) :=
  proxy <- query (Database.get_proxy_for_country "turkey") ;;
  proxy <- match proxy with
           | None => query Database.get_active_proxy
           | Some _ => ret proxy
           end ;;
  match proxy with
  | None => ret None
  | Some proxy =>
      let auth :=
        if PyStr.truthy (p_username proxy) && PyStr.truthy (p_password proxy)
        then PyStr.or_default (p_username proxy) "" ++ ":"
               ++ PyStr.or_default (p_password proxy) "" ++ "@"
        else "" in
      ret (Some ("http://" ++ auth ++ p_host proxy ++ ":"
                 ++ PyStr.str_of_int (p_port proxy)))
  end.

(** The target of the request:
    [domain if domain.startswith("http") else f"https://{domain}"]. *)
Definition target_url (domain : string) : string :=
  if PyStr.startswith "http" domain then domain else "https://" ++ domain.

(** [session.get(url, proxy=proxy)] under the session's headers: the
    environment answers. *)
Definition session_get (url : string) (proxy : option string)
    (user_agent : string) : M Z :=
  emit (EvRequest url proxy user_agent) ;;;
  fun env w =>
    let w' := mkWorld (db w) (locked w) (clock_reads w) (draws w)
                      (S (requests w)) (trace w) in
    match network env (requests w) url proxy user_agent with
    | Response status => (Returns status, w')
    | Failure e => (Raises e, w')
    end.

(** The [except] clauses of [_perform_check], in their order. *)
Definition _perform_check_handlers (exc : exn)
    : option (M (bool * option string)) :=
  if PyExc.isinstance exc ClientConnectorCertificateError then
    Some (ret (false, Some "ERR_SSL_PROTOCOL_ERROR"))
  else if PyExc.isinstance exc ClientSSLError then
    Some (ret (false, Some "ERR_SSL_PROTOCOL_ERROR"))
  else if PyExc.isinstance exc ClientError
          || PyExc.isinstance exc AsyncioTimeoutError then
    Some (ret (false, Some (PyExc.type_name exc)))
  else if PyExc.isinstance exc SSLError then
    Some (ret (false, Some "ERR_SSL_PROTOCOL_ERROR"))
  else None.

(** [_perform_check] *)
Definition _perform_check (domain : string) : M (bool * option string) :=
  proxy <- _get_proxy ;;
  user_agent <- _generate_user_agent ;;
  let url := target_url domain in
  try_except
    (status <- session_get url proxy user_agent ;;
     if status <? 400 then ret (true, None)
     else ret (false, Some ("HTTP " ++ PyStr.str_of_int status)))
    _perform_check_handlers.

(** [self.db.update_domain_status], which reads the clock. *)
Definition db_update_domain_status (domain_id : Z) (status : string)
    (error : option string) : M unit :=
  now <- utcnow ;;
  execute (Database.update_domain_status now domain_id status error) ;;;
  emit (EvUpdateStatus domain_id status error).

(** [self.db.log_check], which reads the clock. *)
Definition db_log_check (domain_id : Z) (status : string)
    (error : option string) : M unit :=
  now <- utcnow ;;
  execute (Database.log_check now domain_id status error) ;;;
  emit (EvLogCheck domain_id status error).

(** The notification decision of [_check_domain_record]: its closing
    [if notify_on_change and previous_status != status: ...]. *)
Definition notify_decision (domain : DomainRow) (notify_on_change : bool)
    (previous_status status : string) (error : option string) : M unit :=
  if notify_on_change && negb (String.eqb previous_status status) then
    if String.eqb status "down" then
      NotificationService.notify_downtime
        (d_name domain) (PyStr.or_default error "Unknown error")
    else if String.eqb previous_status "down" && String.eqb status "up" then
      NotificationService.notify_recovery (d_name domain)
    else ret tt
  else ret tt.

(** [_check_domain_record] *)
Definition _check_domain_record (domain : DomainRow) (notify_on_change : bool)
    : M (bool * option string) :=
  '(is_up, error) <- _perform_check (d_name domain) ;;
  let status := if is_up then "up" else "down" in
  let previous_status := PyStr.or_default (d_last_status domain) "unknown" in
  db_update_domain_status (d_id domain) status error ;;;
  db_log_check (d_id domain) status error ;;;
  notify_decision domain notify_on_change previous_status status error ;;;
  ret (is_up, error).

(** [check_all_domains] *)
Definition check_all_domains : M unit :=
  with_lock
    (domains <- query Database.list_domains ;;
     for_each domains
       (fun domain => _check_domain_record domain true ;;; ret tt)).

(** [check_domain_by_name] *)
Definition check_domain_by_name (name : string) : M (bool * option string) :=
  with_lock
    (record <- query (Database.get_domain name) ;;
     match record with
     | None => raise (mkExn ValueError "Домен не найден")
     | Some record => _check_domain_record record false
     end).

End DomainChecker.

(* ================================================================== *)
(** ** Vocabulary of the properties *)
(* ================================================================== *)

Module Probe.

(** The proxy URL [_get_proxy] arrives at, as a function of the store. *)
Definition proxy_url (st : Store) : option string :=
  match
    match Database.get_proxy_for_country "turkey" st with
    | None => Database.get_active_proxy st
    | Some p => Some p
    end
  with
  | None => None
  | Some proxy =>
      Some ("http://"
            ++ (if PyStr.truthy (p_username proxy)
                   && PyStr.truthy (p_password proxy)
                then PyStr.or_default (p_username proxy) "" ++ ":"
                       ++ PyStr.or_default (p_password proxy) "" ++ "@"
                else "")
            ++ p_host proxy ++ ":" ++ PyStr.str_of_int (p_port proxy))
  end.

(** The user agent drawn when [n] draws were made before. *)
Definition user_agent (env : Env) (n : nat) : string :=
  match DomainChecker._generate_user_agent env
          (mkWorld empty_store false 0 n 0 []) with
  | (Returns ua, _) => ua
  | _ => ""
  end.

(** The request [_perform_check domain] sends from the world [w]. *)
Definition request (domain : string) (env : Env) (w : World) : event :=
  EvRequest (DomainChecker.target_url domain) (proxy_url (db w))
            (user_agent env (draws w)).

(** The environment's answer to it. *)
Definition answer (domain : string) (env : Env) (w : World) : http_result :=
  network env (requests w) (DomainChecker.target_url domain)
          (proxy_url (db w)) (user_agent env (draws w)).

(** The world once the request was made. *)
Definition sent (domain : string) (env : Env) (w : World) : World :=
  mkWorld (db w) (locked w) (clock_reads w) (5 + draws w) (S (requests w))
          (trace w ++ [request domain env w]).

(** An exception some [except] clause of [_perform_check] catches. *)
Definition handled (e : exn) : bool :=
  PyExc.isinstance e ClientError
  || PyExc.isinstance e AsyncioTimeoutError
  || PyExc.isinstance e SSLError.

(** An exception of the TLS layer: aiohttp's [ClientSSLError], which has
    the certificate errors among its subclasses, or [ssl.SSLError]. *)
Definition tls_failure (e : exn) : bool :=
  PyExc.isinstance e ClientSSLError || PyExc.isinstance e SSLError.

(** An answer [_perform_check] turns into an outcome: a response, or an
    exception of the handled or TLS classes. *)
Definition caught (r : http_result) : bool :=
  match r with
  | Response _ => true
  | Failure e => handled e || tls_failure e
  end.

End Probe.

(** Events that notify: the calls of the notifier and its deliveries. *)
Definition is_notification (e : event) : bool :=
  match e with
  | EvNotifyDowntime _ _ | EvNotifyRecovery _ | EvSend _ _ => true
  | _ => false
  end.

(** The notifying events of a trace. *)
Definition notifications (tr : list event) : list event :=
  filter is_notification tr.

(** The world with more events in its trace. *)
Definition add_trace (evs : list event) (w : World) : World :=
  mkWorld (db w) (locked w) (clock_reads w) (draws w) (requests w)
          (trace w ++ evs).

(** What a "went down" notification consists of: the call, and one delivery
    per subscriber. *)
Definition downtime_notice (st : Store) (domain error : string) : list event :=
  EvNotifyDowntime domain error
    :: map (fun chat_id =>
              EvSend chat_id (NotificationService.downtime_text domain error))
         (Database.list_subscribers st).

(** What a "recovered" notification consists of. *)
Definition recovery_notice (st : Store) (domain : string) : list event :=
  EvNotifyRecovery domain
    :: map (fun chat_id =>
              EvSend chat_id (NotificationService.recovery_text domain))
         (Database.list_subscribers st).

Module Check.

Definition status_of (is_up : bool) : string :=
  if is_up then "up" else "down".

(** The world once [_check_domain_record] wrote the outcome of the probe:
    the status with the first clock reading, the log entry with the
    second. *)
Definition written (domain : DomainRow) (is_up : bool)
    (error : option string) (env : Env) (w : World) : World :=
  mkWorld
    (Database.log_check (clock env (S (clock_reads w))) (d_id domain)
       (status_of is_up) error
       (Database.update_domain_status (clock env (clock_reads w))
          (d_id domain) (status_of is_up) error (db w)))
    (locked w) (S (S (clock_reads w))) (draws w) (requests w)
    (trace w ++ [EvUpdateStatus (d_id domain) (status_of is_up) error;
                 EvLogCheck (d_id domain) (status_of is_up) error]).

(** The status [_check_domain_record] compares with:
    [domain.get("last_status") or "unknown"]. *)
Definition previous_status (domain : DomainRow) : string :=
  PyStr.or_default (d_last_status domain) "unknown".

(** The notice, if any, that follows the outcome [is_up] of a record whose
    previous status is [previous]. *)
Definition notice (st : Store) (domain : DomainRow) (previous : string)
    (is_up : bool) (error : option string) : list event :=
  if is_up then
    if String.eqb previous "down"
    then recovery_notice st (d_name domain) else []
  else
    if String.eqb previous "down" then []
    else downtime_notice st (d_name domain)
           (PyStr.or_default error "Unknown error").

End Check.

(* ================================================================== *)
(** ** Concurrent check operations *)
(* ================================================================== *)

(** The event loop runs one coroutine at a time and switches between them
    only where one awaits.  A check operation is therefore a sequence of
    atomic segments, one per awaited call, and several operations issued
    together run as an interleaving of their segments. *)
Module Loop.

Inductive op :=
  | CheckAll
  | CheckOne (name : string).

(** What follows the check of one record: the rest of the batch, or the
    return of the single check. *)
Inductive cont :=
  | KAll (rest : list DomainRow)
  | KOne.

Definition outcome := (bool * option string)%type.

(** Where a coroutine stands inside [async with self._lock]. *)
Inductive stage :=
  | SList                                  (* await self.db.list_domains() *)
  | SLoop (todo : list DomainRow)          (* for domain in domains *)
  | SLookup (name : string)                (* await self.db.get_domain(name) *)
  | SProbe (d : DomainRow) (notify : bool) (k : cont)
  | SUpdate (d : DomainRow) (notify : bool) (o : outcome) (k : cont)
  | SLog (d : DomainRow) (notify : bool) (o : outcome) (k : cont)
  | SNotify (d : DomainRow) (notify : bool) (o : outcome) (k : cont)
  | SExit (r : result (option outcome)).   (* leaving the block *)

Inductive task :=
  | Pending (o : op)                       (* at [async with], outside *)
  | Inside (s : stage)
  | Finished (r : result (option outcome)).

(** The stage reached when a segment ran as [m]. *)
Definition after {A} (m : M A) (next : A -> stage) (env : Env) (w : World)
    : option (task * World) :=
  match m env w with
  | (Returns a, w') => Some (Inside (next a), w')
  | (Raises e, w') => Some (Inside (SExit (Raises e)), w')
  | (Waits, _) => None
  end.

(** [async with self._lock] as the loop sees it, read off [with_lock]: the
    block is entered in the world in which [with_lock] runs its body, and
    cannot be entered while [with_lock] waits ... *)
Definition enter (env : Env) (w : World) : option World :=
  match with_lock (fun _ inside => (Returns inside, inside)) env w with
  | (Returns inside, _) => Some inside
  | _ => None
  end.

(** ... and it is left in the world in which [with_lock] ends when its body
    ends at [w]. *)
Definition leave (env : Env) (w : World) : World :=
  snd (with_lock (fun _ _ => (Returns tt, w)) env (set_locked false w)).

(** One segment of one coroutine; [None] when it cannot run now. *)
Definition task_step (env : Env) (t : task) (w : World)
    : option (task * World) :=
  match t with
  | Pending o =>
      match enter env w with
      | None => None
      | Some inside =>
          Some (Inside match o with
                       | CheckAll => SList
                       | CheckOne name => SLookup name
                       end,
                inside)
      end
  | Inside SList =>
      after (query Database.list_domains) SLoop env w
  | Inside (SLoop []) =>
      Some (Inside (SExit (Returns None)), w)
  | Inside (SLoop (d :: rest)) =>
      Some (Inside (SProbe d true (KAll rest)), w)
  | Inside (SLookup name) =>
      after (record <- query (Database.get_domain name) ;;
             match record with
             | None => raise (mkExn ValueError "Домен не найден")
             | Some record => ret record
             end)
            (fun record => SProbe record false KOne) env w
  | Inside (SProbe d notify k) =>
      after (DomainChecker._perform_check (d_name d))
            (fun o => SUpdate d notify o k) env w
  | Inside (SUpdate d notify o k) =>
      after (DomainChecker.db_update_domain_status
               (d_id d) (Check.status_of (fst o)) (snd o))
            (fun _ => SLog d notify o k) env w
  | Inside (SLog d notify o k) =>
      after (DomainChecker.db_log_check
               (d_id d) (Check.status_of (fst o)) (snd o))
            (fun _ => SNotify d notify o k) env w
  | Inside (SNotify d notify o k) =>
      after (DomainChecker.notify_decision d notify
               (Check.previous_status d) (Check.status_of (fst o)) (snd o))
            (fun _ => match k with
                      | KAll rest => SLoop rest
                      | KOne => SExit (Returns (Some o))
                      end) env w
  | Inside (SExit r) =>
      Some (Finished r, leave env w)
  | Finished _ => None
  end.

(** What a segment is to the lock. *)
Inductive action := Acquire | Work | Release.

Definition action_of (t : task) : action :=
  match t with
  | Pending _ => Acquire
  | Inside (SExit _) => Release
  | _ => Work
  end.

(** The loop: the shared world, the coroutines, and which coroutine ran
    which kind of segment so far. *)
Record System := mkSystem {
  world : World;
  tasks : list task;
  schedule : list (nat * action)
}.

Fixpoint update {A} (i : nat) (x : A) (l : list A) : list A :=
  match l, i with
  | [], _ => []
  | _ :: r, O => x :: r
  | y :: r, S j => y :: update j x r
  end.

(** The loop resumes any coroutine that can run, for one segment. *)
Inductive step (env : Env) : System -> System -> Prop :=
  | step_task : forall s i t t' w',
      nth_error (tasks s) i = Some t ->
      task_step env t (world s) = Some (t', w') ->
      step env s (mkSystem w' (update i t' (tasks s))
                           (schedule s ++ [(i, action_of t)])).

Inductive steps (env : Env) : System -> System -> Prop :=
  | steps_refl : forall s, steps env s s
  | steps_snoc : forall s s' s'',
      steps env s s' -> step env s' s'' -> steps env s s''.

(** All operations issued, none started. *)
Definition issue (ops : list op) (w : World) : System :=
  mkSystem w (map Pending ops) [].

Definition inside (t : task) : bool :=
  match t with Inside _ => true | _ => false end.


(** A schedule is serial from the holder [cur] when each coroutine's
    segments, from its [Acquire] to its [Release], come with no segment of
    another coroutine between them; the result is the holder at the end. *)
Fixpoint serial_from (cur : option nat) (sch : list (nat * action))
    : option (option nat) :=
  match sch with
  | [] => Some cur
  | (i, a) :: r =>
      match a, cur with
      | Acquire, None => serial_from (Some i) r
      | Work, Some j => if Nat.eqb i j then serial_from cur r else None
      | Release, Some j => if Nat.eqb i j then serial_from None r else None
      | _, _ => None
      end
  end.


(** The invariant of the loop: the schedule so far is serial, and its
    holder is the one coroutine inside the block, with the lock held exactly
    when there is one. *)
Definition invariant (s : System) : Prop :=
  exists cur,
    serial_from None (schedule s) = Some cur
    /\ match cur with
       | None =>
           locked (world s) = false
           /\ forall i t, nth_error (tasks s) i = Some t -> inside t = false
       | Some j =>
           locked (world s) = true
           /\ (exists t, nth_error (tasks s) j = Some t /\ inside t = true)
           /\ forall i t, i <> j -> nth_error (tasks s) i = Some t ->
                inside t = false
       end.





(** A segment that neither takes nor frees the lock, and never waits. *)
Definition quiet {A} (m : M A) : Prop :=
  forall env w, locked (snd (m env w)) = locked w /\ fst (m env w) <> Waits.


(** The coroutines that left the block, in the order in which they left. *)
Definition released (sch : list (nat * action)) : list nat :=
  flat_map (fun ia => match snd ia with
                      | Release => [fst ia]
                      | _ => []
                      end) sch.



End Loop.


Module Names.








End Names.

Module ProxyPool.

(** A call of the store's proxy interface, with the clock reading of
    [add_proxy]. *)
Inductive proxy_op :=
  | AddProxy (now : timestamp) (host : string) (port : Z)
             (username password country : option string)
  | RemoveProxy (proxy_id : Z).

Definition apply_op (st : Store) (o : proxy_op) : Store :=
  match o with
  | AddProxy now host port username password country =>
      snd (Database.add_proxy now host port username password country st)
  | RemoveProxy proxy_id => snd (Database.remove_proxy proxy_id st)
  end.

Definition run (ops : list proxy_op) (st : Store) : Store :=
  fold_left apply_op ops st.

(** The clock readings of the additions, in order. *)
Fixpoint add_times (ops : list proxy_op) : list timestamp :=
  match ops with
  | [] => []
  | AddProxy now _ _ _ _ _ :: r => now :: add_times r
  | RemoveProxy _ :: r => add_times r
  end.

(** The clock moves forward from one addition to the next. *)
Definition clock_advances (ops : list proxy_op) : Prop :=
  StronglySorted Z.lt (add_times ops).

Definition active_count (st : Store) : nat :=
  List.length (filter p_is_active (proxies st)).

(** [a] was added before [b]: at an earlier instant, under a smaller
    key. *)
Definition before (a b : ProxyRow) : Prop :=
  p_created_at a < p_created_at b /\ p_id a < p_id b.

(** The last row is active and no other is. *)
Inductive last_active : list ProxyRow -> Prop :=
  | last_active_nil : last_active []
  | last_active_snoc : forall init last,
      Forall (fun r => p_is_active r = false) init ->
      p_is_active last = true ->
      last_active (init ++ [last]).

(** The invariant of the pool: the rows are in the order of their
    addition, no key exceeds the counter, and the newest row is the one
    active row. *)
Definition pool_ok (st : Store) : Prop :=
  StronglySorted before (proxies st)
  /\ Forall (fun r => p_id r <= proxies_seq st) (proxies st)
  /\ last_active (proxies st).

End ProxyPool.

Module Schedules.

(** Resume the coroutines in the given order, skipping one that cannot
    run. *)
Fixpoint play (env : Env) (order : list nat) (s : Loop.System) : Loop.System :=
  match order with
  | [] => s
  | i :: rest =>
      match nth_error (Loop.tasks s) i with
      | Some t =>
          match Loop.task_step env t (Loop.world s) with
          | Some (t', w') =>
              play env rest
                (Loop.mkSystem w' (Loop.update i t' (Loop.tasks s))
                   (Loop.schedule s ++ [(i, Loop.action_of t)]))
          | None => play env rest s
          end
      | None => play env rest s
      end
  end.

End Schedules.

(** Concrete stores, worlds and environments. *)
Module Scenario.

(** The clock ticks once per reading; the generator always draws 0; every
    request gets the answer [r]. *)
Definition answering (r : http_result) : Env :=
  mkEnv (fun n => 1000 + Z.of_nat n) (fun _ => 0%nat) (fun _ _ _ _ => r).

Definition fresh (st : Store) : World := mkWorld st false 0 0 0 [].

(** One subscriber, and [example.com] registered but never checked. *)
Definition store_unchecked : Store :=
  Database.add_domain "Example.com/" (Database.add_subscriber 0 42 empty_store).

Definition example_com : DomainRow :=
  mkDomain 1 "example.com" (Some "unknown") None None.

(** The same store once [example.com] was found down. *)
Definition store_down : Store :=
  Database.log_check 11 1 "down" (Some "HTTP 503")
    (Database.update_domain_status 10 1 "down" (Some "HTTP 503")
       store_unchecked).

Definition example_com_down : DomainRow :=
  mkDomain 1 "example.com" (Some "down") (Some "HTTP 503") (Some 10).

(** The [n]-th request gets the [n]-th of the answers, and a 200 after
    them. *)
Definition answering_in_turn (answers : list http_result) : Env :=
  mkEnv (fun n => 1000 + Z.of_nat n) (fun _ => 0%nat)
        (fun n _ _ _ => nth n answers (Response 200)).

(** Three batches over [example.com], found up, then down, then up. *)
Definition three_batches : M unit :=
  DomainChecker.check_all_domains ;;;
  DomainChecker.check_all_domains ;;;
  DomainChecker.check_all_domains.

(** A batch and a single check issued together, resumed in turn: the single
    check gets the lock first and the batch waits for it. *)
Definition two_checks : Loop.System :=
  Schedules.play (answering (Response 200))
    [1; 0; 1; 0; 1; 0; 1; 0; 1; 0; 1; 0; 1; 0; 1; 0; 0; 0]%nat
    (Loop.issue [Loop.CheckAll; Loop.CheckOne "example.com"]
       (fresh store_down)).

(** Three proxies added, then the newest and the oldest removed. *)
Definition proxy_ops : list ProxyPool.proxy_op :=
  [ProxyPool.AddProxy 1 "10.0.0.1" 8080 None None None;
   ProxyPool.AddProxy 2 "10.0.0.2" 8080 (Some "u") (Some "p") (Some "Turkey");
   ProxyPool.AddProxy 3 "10.0.0.3" 3128 None None None;
   ProxyPool.RemoveProxy 3;
   ProxyPool.RemoveProxy 1].

End Scenario.

(* ================================================================== *)
(** ** The tables under sequences of calls *)
(* ================================================================== *)

Module DomainTable.

(** A call of the store's domain interface, with the clock readings of the
    two that take one. *)
Inductive domain_op :=
  | AddDomain (name : string)
  | RemoveDomain (name : string)
  | UpdateStatus (now : timestamp) (domain_id : Z) (status : string)
                 (error : option string)
  | LogCheck (now : timestamp) (domain_id : Z) (status : string)
             (error : option string).

Definition apply_op (foreign_keys : bool) (st : Store) (o : domain_op) : Store :=
  match o with
  | AddDomain name => Database.add_domain name st
  | RemoveDomain name => snd (Database.remove_domain foreign_keys name st)
  | UpdateStatus now domain_id status error =>
      Database.update_domain_status now domain_id status error st
  | LogCheck now domain_id status error =>
      Database.log_check now domain_id status error st
  end.

Definition run (foreign_keys : bool) (ops : list domain_op) (st : Store) : Store :=
  fold_left (apply_op foreign_keys) ops st.

(** The invariant of the table: keys grow with the rows and stay under the
    counter, and no name occurs twice. *)
Definition table_ok (st : Store) : Prop :=
  StronglySorted Z.lt (map d_id (domains st))
  /\ Forall (fun i => i <= domains_seq st) (map d_id (domains st))
  /\ NoDup (map d_name (domains st)).

End DomainTable.

Module Subscribers.

(** The rows are in the order of their keys, each key once. *)
Definition table_ok (st : Store) : Prop :=
  StronglySorted Z.lt (map s_chat_id (subscribers st)).

End Subscribers.

Module Pool.

(** Keys grow with the rows and stay under the counter. *)
Definition keys_ok (st : Store) : Prop :=
  StronglySorted Z.lt (map p_id (proxies st))
  /\ Forall (fun i => i <= proxies_seq st) (map p_id (proxies st)).

(** [lower(country) = lower(?)] *)
Definition tagged (country : string) (r : ProxyRow) : bool :=
  match p_country r with
  | Some c => String.eqb (PyStr.lower c) (PyStr.lower country)
  | None => false
  end.

(** The proxy URL [_get_proxy] formats for a row. *)
Definition url_of (proxy : ProxyRow) : string :=
  "http://"
    ++ (if PyStr.truthy (p_username proxy) && PyStr.truthy (p_password proxy)
        then PyStr.or_default (p_username proxy) "" ++ ":"
               ++ PyStr.or_default (p_password proxy) "" ++ "@"
        else "")
    ++ p_host proxy ++ ":" ++ PyStr.str_of_int (p_port proxy).

End Pool.

Module Batch.

(** Every answer of the network is one [_perform_check] turns into an
    outcome. *)
Definition all_caught (env : Env) : Prop :=
  forall n url proxy user_agent,
    Probe.caught (network env n url proxy user_agent) = true.

End Batch.

(* ================================================================== *)
(** ** bot.py: the command handlers *)
(* ================================================================== *)

(** The built-ins the proxy commands parse their arguments with. *)
Module PyParse.

Definition is_empty (s : string) : bool :=
  match s with
  | EmptyString => true
  | String _ _ => false
  end.

(** [s.split()] from inside [s], [word] being the characters of the word
    under way. *)
Fixpoint split_from (word : string) (s : string) : list string :=
  match s with
  | EmptyString => if is_empty word then [] else [word]
  | String c rest =>
      if PyStr.isspace c then
        if is_empty word then split_from "" rest
        else word :: split_from "" rest
      else split_from (word ++ String c "") rest
  end.

(** [s.split()]: the words of [s], which runs of whitespace separate. *)
Definition split (s : string) : list string := split_from "" s.

(** The whitespace [int] passes over around a literal: the tab to
    carriage-return range and the blank. *)
Definition c_isspace (c : ascii) : bool :=
  let n := nat_of_ascii c in
  ((9 <=? n) && (n <=? 13) || (n =? 32))%nat.

Definition isdigit (c : ascii) : bool :=
  let n := nat_of_ascii c in
  ((48 <=? n) && (n <=? 57))%nat.

(** The digits of a decimal literal, its underscores taken out; an
    underscore stands between two digits only.  [after_digit]: the character
    before was a digit. *)
Fixpoint digits_of (after_digit : bool) (s : string) : option string :=
  match s with
  | EmptyString => if after_digit then Some "" else None
  | String c rest =>
      if isdigit c then option_map (String c) (digits_of true rest)
      else if Ascii.eqb c "_" && after_digit then digits_of false rest
      else None
  end.

(** [int(s)]; [None] is [ValueError].  [max_str_digits] is
    [sys.get_int_max_str_digits()]: [0] for no limit (as in the
    interpreters that have none), 4300 unless set; literals of up to 640
    digits are never refused. *)
Definition int (max_str_digits : nat) (s : string) : option Z :=
  let s := PyStr.strip_with c_isspace s in
  let '(negative, body) :=
    match s with
    | String "-" rest => (true, rest)
    | String "+" rest => (false, rest)
    | _ => (false, s)
    end in
  match digits_of false body with
  | None => None
  | Some digits =>
      if ((640 <? String.length digits) && (0 <? max_str_digits)
          && (max_str_digits <? String.length digits))%nat
      then None
      else
        match NilZero.uint_of_string digits with
        | Some u => Some (if negative then - Z.of_uint u else Z.of_uint u)
        | None => None
        end
  end.

(** An integer SQLite stores: 64 bits, signed.  The [sqlite3] module raises
    [OverflowError] when asked to bind another. *)
Definition sqlite_int (n : Z) : bool :=
  (- 2 ^ 63 <=? n) && (n <? 2 ^ 63).

Definition overflow : exn :=
  mkExn (OtherClass "OverflowError")
        "Python int too large to convert to SQLite INTEGER".

End PyParse.

(** The handlers of [BotService] that change the store or start a check.
    A handler is given the chat of the message ([message.chat.id], a 64-bit
    integer) and the arguments of the command ([command.args]); it ends with
    one [message.answer], whose text is its result here.  [list_domains] and
    [list_proxies], which format the tables for the reply, are left out. *)
Module Handlers.

(** A statement that changes the store and gives a value. *)
Definition transact {A} (f : Store -> A * Store) : M A :=
  fun _ w =>
    (Returns (fst (f (db w))),
     mkWorld (snd (f (db w))) (locked w) (clock_reads w) (draws w)
             (requests w) (trace w)).

(** [self.db.add_subscriber], which reads the clock. *)
Definition db_add_subscriber (chat_id : Z) : M unit :=
  now <- utcnow ;;
  execute (Database.add_subscriber now chat_id).

(** The world once [db_add_subscriber] ran. *)
Definition subscribed (chat_id : Z) (env : Env) (w : World) : World :=
  mkWorld (Database.add_subscriber (clock env (clock_reads w)) chat_id (db w))
          (locked w) (S (clock_reads w)) (draws w) (requests w) (trace w).

(** [self.db.add_proxy], which reads the clock.  A port SQLite cannot store
    ends the call at the [INSERT]; the connection closes without a commit,
    and the [UPDATE] before it is undone. *)
Definition db_add_proxy (host : string) (port : Z)
    (username password country : option string) : M Z :=
  now <- utcnow ;;
  if PyParse.sqlite_int port
  then transact (Database.add_proxy now host port username password country)
  else raise PyParse.overflow.

(** [self.db.remove_proxy] *)
Definition db_remove_proxy (proxy_id : Z) : M bool :=
  if PyParse.sqlite_int proxy_id
  then transact (Database.remove_proxy proxy_id)
  else raise PyParse.overflow.

(** [cmd_start] *)
Definition cmd_start (chat_id : Z) : M string :=
  db_add_subscriber chat_id ;;;
  ret "Привет! Я мониторю домены. Используй /add_domain, чтобы добавить домен для проверки.".

(** [add_domain] *)
Definition add_domain (chat_id : Z) (args : option string) : M string :=
  db_add_subscriber chat_id ;;;
  if negb (PyStr.truthy args) then
    ret "Укажи домен: /add_domain example.com"
  else
    let domain := BotService._normalize_domain (PyStr.or_default args "") in
    execute (Database.add_domain domain) ;;;
    ret ("Домен <b>" ++ domain ++ "</b> добавлен.").

(** [remove_domain]; [foreign_keys] is the setting of the connection, see
    [Database.remove_domain]. *)
Definition remove_domain (foreign_keys : bool) (chat_id : Z)
    (args : option string) : M string :=
  db_add_subscriber chat_id ;;;
  if negb (PyStr.truthy args) then
    ret "Укажи домен: /remove_domain example.com"
  else
    let domain := BotService._normalize_domain (PyStr.or_default args "") in
    removed <- transact (Database.remove_domain foreign_keys domain) ;;
    if removed : bool then ret ("Домен <b>" ++ domain ++ "</b> удалён.")
    else ret "Такого домена нет в списке.".

Definition not_found_text : string :=
  "Домен не найден. Добавь его через /add_domain".

Definition up_text (domain : string) : string :=
  "✅ <b>" ++ domain ++ "</b> доступен".

Definition down_text (domain : string) (error : option string) : string :=
  "❌ <b>" ++ domain ++ "</b> недоступен: "
    ++ PyStr.or_default error "Unknown error".

(** [force_check], the handler of [/check]. *)
Definition force_check (chat_id : Z) (args : option string) : M string :=
  db_add_subscriber chat_id ;;;
  if negb (PyStr.truthy args) then
    ret "Укажи домен: /check example.com"
  else
    let domain := BotService._normalize_domain (PyStr.or_default args "") in
    outcome <-
      try_except
        (r <- DomainChecker.check_domain_by_name domain ;; ret (Some r))
        (fun exc =>
           if PyExc.isinstance exc ValueError then Some (ret None) else None) ;;
    match outcome with
    | None => ret not_found_text
    | Some (is_up, error) =>
        if is_up : bool then ret (up_text domain)
        else ret (down_text domain error)
    end.

Definition added_proxy_text (proxy_id : Z) : string :=
  "Прокси #" ++ PyStr.str_of_int proxy_id ++ " добавлен и активирован.".

(** [add_proxy]; [max_str_digits] is the setting of the interpreter, see
    [PyParse.int]. *)
Definition add_proxy (max_str_digits : nat) (chat_id : Z)
    (args : option string) : M string :=
  db_add_subscriber chat_id ;;;
  if negb (PyStr.truthy args) then
    ret ("Формат: /add_proxy host port [username] [password] [country]."
         ++ " Укажите прокси с турецкой геолокацией, чтобы проверки шли из Турции.")
  else
    let parts := PyParse.split (PyStr.or_default args "") in
    if (List.length parts <? 2)%nat then
      ret "Недостаточно данных. Минимум host и port."
    else
      let host := nth 0 parts "" in
      match PyParse.int max_str_digits (nth 1 parts "") with
      | None => ret "Порт должен быть числом."
      | Some port =>
          let username := nth_error parts 2 in
          let password := nth_error parts 3 in
          let country := nth_error parts 4 in
          proxy_id <- db_add_proxy host port username password country ;;
          ret (added_proxy_text proxy_id)
      end.

(** [remove_proxy] *)
Definition remove_proxy (max_str_digits : nat) (chat_id : Z)
    (args : option string) : M string :=
  db_add_subscriber chat_id ;;;
  if negb (PyStr.truthy args) then
    ret "Укажи ID прокси: /remove_proxy 1"
  else
    match PyParse.int max_str_digits
            (PyStr.strip (PyStr.or_default args "")) with
    | None => ret "ID должен быть числом."
    | Some proxy_id =>
        removed <- db_remove_proxy proxy_id ;;
        if removed : bool then ret "Прокси удалён."
        else ret "Прокси с таким ID не найден."
    end.

(** The handlers as commands of a chat. *)
Inductive command :=
  | Start
  | AddDomain (args : option string)
  | RemoveDomain (args : option string)
  | Check (args : option string)
  | AddProxy (args : option string)
  | RemoveProxy (args : option string).

(** The handler [_register_handlers] binds to a command. *)
Definition handle (foreign_keys : bool) (max_str_digits : nat)
    (chat_id : Z) (c : command) : M string :=
  match c with
  | Start => cmd_start chat_id
  | AddDomain args => add_domain chat_id args
  | RemoveDomain args => remove_domain foreign_keys chat_id args
  | Check args => force_check chat_id args
  | AddProxy args => add_proxy max_str_digits chat_id args
  | RemoveProxy args => remove_proxy max_str_digits chat_id args
  end.

End Handlers.

(** Further concrete inputs. *)
Module Cases.

(** A name added in two spellings, another added, removed and added again. *)
Definition domain_ops : list DomainTable.domain_op :=
  [DomainTable.AddDomain "Example.com";
   DomainTable.AddDomain "https://example.com/";
   DomainTable.AddDomain "other.org";
   DomainTable.UpdateStatus 5 1 "up" None;
   DomainTable.RemoveDomain "OTHER.org";
   DomainTable.AddDomain "other.org"].

(** A world whose pool is the one [Scenario.proxy_ops] leaves. *)
Definition with_pool : World :=
  Scenario.fresh (ProxyPool.run Scenario.proxy_ops empty_store).


(** The two checks of [Scenario.two_checks], resumed in turn until both
    are done. *)
Definition two_checks_done : Loop.System :=
  Schedules.play (Scenario.answering (Response 200))
    (List.concat (repeat [1; 0]%nat 20))
    (Loop.issue [Loop.CheckAll; Loop.CheckOne "example.com"]
       (Scenario.fresh Scenario.store_down)).

(** The request is cancelled. *)
Definition cancelled : Env :=
  Scenario.answering (Failure (mkExn CancelledError "")).

(** The request fails on the host name, before it is sent. *)
Definition value_error : Env :=
  Scenario.answering (Failure (mkExn ValueError "label empty or too long")).

End Cases.

(* ================================================================== *)
(** * Properties *)
(* ================================================================== *)

(** ** The probe *)

Lemma str_of_int_reads_back (n : Z) :
  option_map Z.of_int (NilZero.int_of_string (PyStr.str_of_int n)) = Some n.
Proof.
  unfold PyStr.str_of_int.
  rewrite NilZero.isi.
  - cbn. now rewrite DecimalZ.of_to.
  - destruct n; cbn; try discriminate.
    intros [= H]. now apply (DecimalPos.Unsigned.to_uint_nonnil p).
  - destruct n; cbn; try discriminate.
    intros [= H]. now apply (DecimalPos.Unsigned.to_uint_nonnil p).
Qed.

Lemma get_proxy_run env w :
  DomainChecker._get_proxy env w = (Returns (Probe.proxy_url (db w)), w).
Proof.
  unfold DomainChecker._get_proxy, Probe.proxy_url, bind, query, ret.
  destruct (Database.get_proxy_for_country "turkey" (db w)) as [p|]; [reflexivity|].
  destruct (Database.get_active_proxy (db w)) as [p|]; reflexivity.
Qed.

Lemma generate_user_agent_run env w :
  DomainChecker._generate_user_agent env w
  = (Returns (Probe.user_agent env (draws w)),
     mkWorld (db w) (locked w) (clock_reads w) (5 + draws w) (requests w)
             (trace w)).
Proof.
  unfold Probe.user_agent, DomainChecker._generate_user_agent,
    DomainChecker.random_choice, DomainChecker.random_randint, bind, ret, draw.
  cbn [db locked clock_reads draws requests trace Nat.add].
  reflexivity.
Qed.

(** [_perform_check] sends one request and classifies the answer. *)
Lemma perform_check_run domain env w :
  DomainChecker._perform_check domain env w =
  match Probe.answer domain env w with
  | Response status =>
      (Returns (if status <? 400 then (true, None)
                else (false, Some ("HTTP " ++ PyStr.str_of_int status))),
       Probe.sent domain env w)
  | Failure e =>
      match DomainChecker._perform_check_handlers e with
      | Some h => h env (Probe.sent domain env w)
      | None => (Raises e, Probe.sent domain env w)
      end
  end.
Proof.
  unfold DomainChecker._perform_check.
  unfold bind at 1. rewrite get_proxy_run.
  unfold bind at 1. rewrite generate_user_agent_run.
  unfold try_except, DomainChecker.session_get, bind, emit, Probe.answer,
    Probe.sent, Probe.request.
  cbn [db locked clock_reads draws requests trace].
  destruct (network env (requests w) (DomainChecker.target_url domain)
              (Probe.proxy_url (db w)) (Probe.user_agent env (draws w)))
    as [status|e].
  - destruct (status <? 400); reflexivity.
  - reflexivity.
Qed.

(** The clauses catch exactly the handled exceptions, and label every
    exception of the TLS layer with the same token. *)
Lemma handlers_spec e :
  if Probe.handled e then
    exists kind,
      DomainChecker._perform_check_handlers e = Some (ret (false, Some kind))
      /\ (Probe.tls_failure e = true -> kind = "ERR_SSL_PROTOCOL_ERROR")
  else DomainChecker._perform_check_handlers e = None.
Proof.
  destruct e as [c msg].
  destruct c; cbv -[String.append];
    try reflexivity;
    eexists; (split; [reflexivity | intros H; try discriminate H; reflexivity]).
Qed.

Lemma tls_failure_handled e :
  Probe.tls_failure e = true -> Probe.handled e = true.
Proof.
  destruct e as [c msg]. destruct c; cbv; congruence.
Qed.

(** Whatever [_perform_check] returns, it is up exactly when it carries no
    error. *)
Lemma perform_check_returns domain env w o w' :
  DomainChecker._perform_check domain env w = (Returns o, w') ->
  w' = Probe.sent domain env w
  /\ ((fst o = true /\ snd o = None)
      \/ (fst o = false /\ exists kind, snd o = Some kind)).
Proof.
  rewrite perform_check_run.
  destruct (Probe.answer domain env w) as [status|e].
  - destruct (status <? 400); intros [= <- <-]; split; auto.
    right. cbn. eauto.
  - pose proof (handlers_spec e) as H.
    destruct (Probe.handled e).
    + destruct H as (kind & -> & _). unfold ret.
      intros [= <- <-]. split; auto. right. cbn. eauto.
    + rewrite H. discriminate.
Qed.

(** An answer of the caught kind gives an outcome. *)
Lemma perform_check_caught domain env w :
  Probe.caught (Probe.answer domain env w) = true ->
  exists o,
    DomainChecker._perform_check domain env w
    = (Returns o, Probe.sent domain env w).
Proof.
  intros Hc. rewrite perform_check_run.
  destruct (Probe.answer domain env w) as [status|e];
    [eexists; reflexivity|].
  unfold Probe.caught in Hc.
  assert (Hh : Probe.handled e = true).
  { apply orb_true_iff in Hc.
    destruct Hc as [Hc|Hc]; [exact Hc | now apply tls_failure_handled]. }
  pose proof (handlers_spec e) as H. rewrite Hh in H.
  destruct H as (kind & -> & _). eexists. reflexivity.
Qed.

(** Any other answer is an exception, which goes through. *)
Lemma perform_check_uncaught domain env w e :
  Probe.answer domain env w = Failure e -> Probe.handled e = false ->
  DomainChecker._perform_check domain env w
  = (Raises e, Probe.sent domain env w).
Proof.
  intros Ha Hh. rewrite perform_check_run, Ha.
  pose proof (handlers_spec e) as H. rewrite Hh in H. now rewrite H.
Qed.

(** C4, as stated, fails: an exception outside the classes the clauses name
    passes through [_perform_check].  Here the request is cancelled, or the
    client raises a plain [ValueError]. *)
Lemma perform_check_raises_counterexample :
  fst (DomainChecker._perform_check "example.com"
         (Scenario.answering (Failure (mkExn CancelledError "")))
         (Scenario.fresh Scenario.store_unchecked))
  = Raises (mkExn CancelledError "")
  /\ fst (DomainChecker._perform_check "example.com"
            (Scenario.answering (Failure (mkExn ValueError "bad proxy")))
            (Scenario.fresh Scenario.store_unchecked))
     = Raises (mkExn ValueError "bad proxy").
Proof. split; vm_compute; reflexivity. Qed.

(** C4, amended: when the request is answered by a response, or fails with an
    exception that is an instance of [aiohttp.ClientError],
    [asyncio.TimeoutError] or [ssl.SSLError] (the TLS failures are among
    them), [_perform_check] returns one outcome and raises nothing; a failure
    gives [isUp = false] with an error kind, and a failure of the TLS layer
    gives exactly ["ERR_SSL_PROTOCOL_ERROR"]. *)
Theorem perform_check_outcome (domain : string) (env : Env) (w : World) :
  Probe.caught (Probe.answer domain env w) = true ->
  exists o,
    DomainChecker._perform_check domain env w
    = (Returns o, Probe.sent domain env w)
    /\ forall e, Probe.answer domain env w = Failure e ->
         fst o = false
         /\ (exists kind, snd o = Some kind)
         /\ (Probe.tls_failure e = true ->
             snd o = Some "ERR_SSL_PROTOCOL_ERROR").
Proof.
  intros Hc. rewrite perform_check_run.
  destruct (Probe.answer domain env w) as [status|e].
  - eexists. split; [reflexivity | discriminate].
  - unfold Probe.caught in Hc.
    assert (Hh : Probe.handled e = true).
    { apply orb_true_iff in Hc.
      destruct Hc as [Hc|Hc]; [exact Hc | now apply tls_failure_handled]. }
    pose proof (handlers_spec e) as H. rewrite Hh in H.
    destruct H as (kind & -> & Htls).
    exists (false, Some kind). split; [reflexivity|].
    intros e' [= <-]. cbn. repeat split; eauto.
    intros Ht. now rewrite (Htls Ht).
Qed.

Lemma perform_check_outcome_witness :
  Probe.caught
    (Probe.answer "example.com"
       (Scenario.answering
          (Failure (mkExn ClientConnectorCertificateError "expired")))
       (Scenario.fresh Scenario.store_unchecked)) = true
  /\ exists o,
      DomainChecker._perform_check "example.com"
        (Scenario.answering
           (Failure (mkExn ClientConnectorCertificateError "expired")))
        (Scenario.fresh Scenario.store_unchecked)
      = (Returns o,
         Probe.sent "example.com"
           (Scenario.answering
              (Failure (mkExn ClientConnectorCertificateError "expired")))
           (Scenario.fresh Scenario.store_unchecked))
      /\ forall e,
           Probe.answer "example.com"
             (Scenario.answering
                (Failure (mkExn ClientConnectorCertificateError "expired")))
             (Scenario.fresh Scenario.store_unchecked) = Failure e ->
           fst o = false
           /\ (exists kind, snd o = Some kind)
           /\ (Probe.tls_failure e = true ->
               snd o = Some "ERR_SSL_PROTOCOL_ERROR").
Proof.
  split; [reflexivity|].
  apply (perform_check_outcome "example.com"
           (Scenario.answering
              (Failure (mkExn ClientConnectorCertificateError "expired")))
           (Scenario.fresh Scenario.store_unchecked)).
  reflexivity.
Defined.

(** C5: when the request is answered by a response, a status code below 400
    gives the outcome (up, no error), and a status code of 400 or more gives
    (down, ["HTTP <code>"]), the code written in decimal. *)
Theorem perform_check_http_status (domain : string) (env : Env) (w : World)
    (status : Z) :
  Probe.answer domain env w = Response status ->
  (status < 400 ->
   DomainChecker._perform_check domain env w
   = (Returns (true, None), Probe.sent domain env w))
  /\ (400 <= status ->
      DomainChecker._perform_check domain env w
      = (Returns (false, Some ("HTTP " ++ PyStr.str_of_int status)),
         Probe.sent domain env w)
      /\ option_map Z.of_int
           (NilZero.int_of_string (PyStr.str_of_int status)) = Some status).
Proof.
  intros Ha. rewrite perform_check_run, Ha. split.
  - intros Hlt. apply Z.ltb_lt in Hlt. now rewrite Hlt.
  - intros Hge. apply Z.ltb_ge in Hge. rewrite Hge.
    split; [reflexivity | apply str_of_int_reads_back].
Qed.

Lemma perform_check_http_status_witness :
  Probe.answer "example.com" (Scenario.answering (Response 404))
    (Scenario.fresh Scenario.store_unchecked) = Response 404
  /\ fst (DomainChecker._perform_check "example.com"
            (Scenario.answering (Response 404))
            (Scenario.fresh Scenario.store_unchecked))
     = Returns (false, Some "HTTP 404").
Proof.
  split; [reflexivity|].
  destruct (perform_check_http_status "example.com"
              (Scenario.answering (Response 404))
              (Scenario.fresh Scenario.store_unchecked) 404 eq_refl)
    as [_ H].
  destruct (H ltac:(lia)) as [-> _]. reflexivity.
Defined.

Lemma prefix_app (a b s : string) :
  String.prefix (a ++ b) s = true -> String.prefix a s = true.
Proof.
  revert s. induction a as [|c a IH]; intros [|d s]; cbn;
    try discriminate; auto.
  destruct (ascii_dec c d); [apply IH | discriminate].
Qed.

(** What the URL rule does get right: a name with a scheme is used as it
    is, and a name that does not begin with [http] gets [https://]. *)
Lemma target_url_cases (domain : string) :
  (PyStr.startswith "http://" domain = true
   \/ PyStr.startswith "https://" domain = true ->
   DomainChecker.target_url domain = domain)
  /\ (PyStr.startswith "http" domain = false ->
      DomainChecker.target_url domain = "https://" ++ domain).
Proof.
  unfold DomainChecker.target_url, PyStr.startswith. split.
  - intros [H|H].
    + now rewrite (prefix_app "http" "://" domain H).
    + now rewrite (prefix_app "http" "s://" domain H).
  - intros ->. reflexivity.
Qed.

(** C6, at the failing input: the stored name [httpbin.org] carries no
    scheme, yet it begins with [http], so it is requested as it is and not as
    [https://httpbin.org]. *)
Theorem target_url_httpbin :
  PyStr.startswith "http://" "httpbin.org" = false
  /\ PyStr.startswith "https://" "httpbin.org" = false
  /\ Database._normalize_domain "httpbin.org" = "httpbin.org"
  /\ DomainChecker.target_url "httpbin.org" = "httpbin.org"
  /\ DomainChecker.target_url "httpbin.org" <> "https://httpbin.org".
Proof. repeat split; try reflexivity. discriminate. Qed.

(** ** The check of one record *)

Lemma add_trace_nil w : add_trace [] w = w.
Proof. destruct w. unfold add_trace. cbn. now rewrite app_nil_r. Qed.

Lemma add_trace_app a b w : add_trace b (add_trace a w) = add_trace (a ++ b) w.
Proof. unfold add_trace. cbn. now rewrite app_assoc. Qed.

Lemma for_each_emit {A} (f : A -> event) (xs : list A) env w :
  for_each xs (fun x => emit (f x)) env w
  = (Returns tt, add_trace (map f xs) w).
Proof.
  revert w. induction xs as [|x xs IH]; intros w; cbn [for_each map].
  - unfold ret. now rewrite add_trace_nil.
  - unfold bind. unfold emit at 1.
    rewrite IH. f_equal.
    change (mkWorld (db w) (locked w) (clock_reads w) (draws w) (requests w)
              (trace w ++ [f x])) with (add_trace [f x] w).
    apply add_trace_app.
Qed.

Lemma broadcast_run message env w :
  NotificationService.broadcast message env w
  = (Returns tt,
     add_trace (map (fun chat_id => EvSend chat_id message)
                  (Database.list_subscribers (db w))) w).
Proof.
  unfold NotificationService.broadcast, bind, query.
  apply for_each_emit.
Qed.

Lemma notify_downtime_run domain error env w :
  NotificationService.notify_downtime domain error env w
  = (Returns tt, add_trace (downtime_notice (db w) domain error) w).
Proof.
  unfold NotificationService.notify_downtime, bind, emit.
  rewrite broadcast_run. f_equal.
  change (mkWorld (db w) (locked w) (clock_reads w) (draws w) (requests w)
            (trace w ++ [EvNotifyDowntime domain error]))
    with (add_trace [EvNotifyDowntime domain error] w).
  apply add_trace_app.
Qed.

Lemma notify_recovery_run domain env w :
  NotificationService.notify_recovery domain env w
  = (Returns tt, add_trace (recovery_notice (db w) domain) w).
Proof.
  unfold NotificationService.notify_recovery, bind, emit.
  rewrite broadcast_run. f_equal.
  change (mkWorld (db w) (locked w) (clock_reads w) (draws w) (requests w)
            (trace w ++ [EvNotifyRecovery domain]))
    with (add_trace [EvNotifyRecovery domain] w).
  apply add_trace_app.
Qed.

(** The decision, for the two statuses a probe can give. *)
Lemma notify_decision_run domain notify previous is_up error env w :
  DomainChecker.notify_decision domain notify previous
    (Check.status_of is_up) error env w
  = (Returns tt,
     add_trace (if notify
                then Check.notice (db w) domain previous is_up error
                else []) w).
Proof.
  unfold DomainChecker.notify_decision, Check.notice, Check.status_of.
  destruct notify; cbn [andb]; [|unfold ret; now rewrite add_trace_nil].
  destruct is_up.
  - destruct (String.eqb_spec previous "down") as [->|Hd].
    + cbn. apply notify_recovery_run.
    + destruct (String.eqb previous "up"); cbn;
        unfold ret; now rewrite add_trace_nil.
  - destruct (String.eqb_spec previous "down") as [->|Hd].
    + cbn. unfold ret. now rewrite add_trace_nil.
    + cbn. apply notify_downtime_run.
Qed.

(** [_check_domain_record] after a probe that returned: the outcome is
    written, then the notice is sent, and the outcome is returned. *)
Lemma check_record_run domain notify env w is_up error w1 :
  DomainChecker._perform_check (d_name domain) env w
  = (Returns (is_up, error), w1) ->
  DomainChecker._check_domain_record domain notify env w
  = (Returns (is_up, error),
     add_trace (if notify
                then Check.notice (db w) domain
                       (Check.previous_status domain) is_up error
                else [])
       (Check.written domain is_up error env w1)).
Proof.
  intros Hp.
  assert (Hdb : Database.list_subscribers (db w1) = Database.list_subscribers (db w)).
  { apply perform_check_returns in Hp. destruct Hp as [-> _]. reflexivity. }
  unfold DomainChecker._check_domain_record.
  unfold bind at 1. rewrite Hp.
  change (if is_up then "up" else "down") with (Check.status_of is_up).
  unfold bind at 1.
  unfold DomainChecker.db_update_domain_status, DomainChecker.db_log_check,
    utcnow, execute, emit, bind at 1 2 3 4 5.
  cbn [db locked clock_reads draws requests trace].
  unfold bind at 1.
  change (PyStr.or_default (d_last_status domain) "unknown")
    with (Check.previous_status domain).
  rewrite notify_decision_run. unfold ret, Check.written.
  cbn [db locked clock_reads draws requests trace].
  rewrite <- app_assoc. cbn [app].
  unfold Check.notice, downtime_notice, recovery_notice, Database.list_subscribers
    in *.
  cbn [subscribers Database.log_check Database.update_domain_status set_domains].
  rewrite Hdb. reflexivity.
Qed.

Lemma notifications_app a b :
  notifications (a ++ b) = (notifications a ++ notifications b)%list.
Proof. apply filter_app. Qed.

Lemma notifications_notice st domain previous is_up error :
  notifications (Check.notice st domain previous is_up error)
  = Check.notice st domain previous is_up error.
Proof.
  unfold Check.notice, downtime_notice, recovery_notice, notifications.
  destruct is_up, (String.eqb previous "down"); cbn; try reflexivity;
    f_equal; induction (Database.list_subscribers st); cbn; congruence.
Qed.

Lemma notice_is_notification st domain previous is_up error :
  Forall (fun e => is_notification e = true)
         (Check.notice st domain previous is_up error).
Proof.
  unfold Check.notice, downtime_notice, recovery_notice.
  destruct is_up, (String.eqb previous "down"); cbn; constructor;
    try reflexivity;
    induction (Database.list_subscribers st); cbn; constructor; auto.
Qed.

(** The trace after [_check_domain_record]: the request, the two writes,
    then the notice. *)
Lemma check_record_trace domain (notify : bool) env w is_up error w1 :
  DomainChecker._perform_check (d_name domain) env w
  = (Returns (is_up, error), w1) ->
  trace (add_trace (if notify
                    then Check.notice (db w) domain
                           (Check.previous_status domain) is_up error
                    else [])
           (Check.written domain is_up error env w1))
  = (trace w
       ++ [Probe.request (d_name domain) env w;
           EvUpdateStatus (d_id domain) (Check.status_of is_up) error;
           EvLogCheck (d_id domain) (Check.status_of is_up) error]
       ++ (if notify
           then Check.notice (db w) domain (Check.previous_status domain)
                  is_up error
           else []))%list.
Proof.
  intros Hp. apply perform_check_returns in Hp. destruct Hp as [-> _].
  cbn [add_trace Check.written Probe.sent trace].
  rewrite <- !app_assoc. reflexivity.
Qed.

(** C1, as stated, fails: [example.com] has the stored status [unknown], the
    probe finds it down, and the check with notification enabled calls the
    notifier and delivers to the subscriber. *)
Lemma unknown_to_down_notifies_counterexample :
  d_last_status Scenario.example_com = Some "unknown"
  /\ Database.get_domain "example.com" Scenario.store_unchecked
     = Some Scenario.example_com
  /\ notifications
       (trace (snd (DomainChecker._check_domain_record Scenario.example_com true
                      (Scenario.answering (Response 503))
                      (Scenario.fresh Scenario.store_unchecked))))
     = [EvNotifyDowntime "example.com" "HTTP 503";
        EvSend 42 (NotificationService.downtime_text "example.com" "HTTP 503")].
Proof. repeat split; vm_compute; reflexivity. Qed.

(** C1, amended: when the probe returns, the check with notification
    enabled adds exactly these notifying events.  From a previous status
    other than [down] (so from [unknown]): nothing when the outcome is up,
    one "went down" notice when it is down.  From [down]: one "recovered"
    notice when the outcome is up, nothing when it is down.  So a recovery
    notice requires the previous status [down], and a first check that finds
    the domain down does notify. *)
Theorem check_record_notice (domain : DomainRow) (env : Env) (w : World)
    (is_up : bool) (error : option string) (w1 : World) :
  DomainChecker._perform_check (d_name domain) env w
  = (Returns (is_up, error), w1) ->
  exists w2 new,
    DomainChecker._check_domain_record domain true env w
    = (Returns (is_up, error), w2)
    /\ notifications (trace w2) = (notifications (trace w) ++ new)%list
    /\ (d_last_status domain = Some "unknown" ->
        new = if is_up then []
              else downtime_notice (db w) (d_name domain)
                     (PyStr.or_default error "Unknown error"))
    /\ (Check.previous_status domain <> "down" -> is_up = true -> new = [])
    /\ (Check.previous_status domain <> "down" -> is_up = false ->
        new = downtime_notice (db w) (d_name domain)
                (PyStr.or_default error "Unknown error"))
    /\ (Check.previous_status domain = "down" -> is_up = true ->
        new = recovery_notice (db w) (d_name domain))
    /\ (Check.previous_status domain = "down" -> is_up = false -> new = []).
Proof.
  intros Hp.
  eexists. exists (Check.notice (db w) domain (Check.previous_status domain)
                     is_up error).
  split; [apply (check_record_run _ true _ _ _ _ _ Hp)|].
  split.
  { rewrite (check_record_trace _ true _ _ _ _ _ Hp).
    rewrite !notifications_app, notifications_notice. cbn. reflexivity. }
  unfold Check.notice.
  repeat split.
  - unfold Check.previous_status. intros ->. cbn. reflexivity.
  - intros Hd ->. destruct (String.eqb_spec (Check.previous_status domain) "down");
      [contradiction | reflexivity].
  - intros Hd ->. destruct (String.eqb_spec (Check.previous_status domain) "down");
      [contradiction | reflexivity].
  - intros -> ->. reflexivity.
  - intros -> ->. reflexivity.
Qed.

Lemma check_record_notice_witness :
  exists w2 new,
    DomainChecker._check_domain_record Scenario.example_com_down true
      (Scenario.answering (Response 200)) (Scenario.fresh Scenario.store_down)
    = (Returns (true, None), w2)
    /\ notifications (trace w2) = ([] ++ new)%list
    /\ new = [EvNotifyRecovery "example.com";
              EvSend 42 (NotificationService.recovery_text "example.com")].
Proof.
  destruct (check_record_notice Scenario.example_com_down
              (Scenario.answering (Response 200))
              (Scenario.fresh Scenario.store_down) true None
              (Probe.sent "example.com" (Scenario.answering (Response 200))
                 (Scenario.fresh Scenario.store_down)) eq_refl)
    as (w2 & new & Hrun & Hn & _ & _ & _ & Hrec & _).
  exists w2, new. repeat split; [exact Hrun | exact Hn |].
  rewrite (Hrec eq_refl eq_refl). reflexivity.
Defined.

(** The rows [update_domain_status] addresses hold what was written. *)
Lemma updated_row now domain_id status error st r :
  In r (domains (Database.update_domain_status now domain_id status error st)) ->
  d_id r = domain_id ->
  d_last_status r = Some status
  /\ d_last_error r = error
  /\ d_last_checked r = Some now.
Proof.
  unfold Database.update_domain_status, set_domains. cbn [domains].
  rewrite in_map_iff. intros (r0 & <- & _).
  destruct (Z.eqb_spec (d_id r0) domain_id) as [E|E]; cbn; auto.
  intros E'. contradiction.
Qed.

Lemma update_keeps_ids now domain_id status error st :
  map d_id (domains (Database.update_domain_status now domain_id status error st))
  = map d_id (domains st)
  /\ map d_name
       (domains (Database.update_domain_status now domain_id status error st))
     = map d_name (domains st).
Proof.
  unfold Database.update_domain_status, set_domains. cbn [domains].
  rewrite !map_map. split; apply map_ext; intros r;
    destruct (d_id r =? domain_id); reflexivity.
Qed.

(** After [_check_domain_record], the rows with the domain's id hold the
    outcome and the first clock reading. *)
Lemma check_record_rows domain (notify : bool) env w is_up error r :
  In r (domains
          (db (add_trace
                 (if notify
                  then Check.notice (db w) domain
                         (Check.previous_status domain) is_up error
                  else [])
                 (Check.written domain is_up error env
                    (Probe.sent (d_name domain) env w))))) ->
  d_id r = d_id domain ->
  d_last_status r = Some (Check.status_of is_up)
  /\ d_last_error r = error
  /\ d_last_checked r = Some (clock env (clock_reads w)).
Proof.
  intros Hin Hid. cbn in Hin. now apply updated_row in Hin.
Qed.

(** Whenever the probe returns an outcome, [_check_domain_record] appends
    one entry to the check log, sets [last_status], [last_error] and
    [last_checked] of the record with the domain's id, and does both before
    any notifying event. *)
Lemma check_record_written (domain : DomainRow) (notify : bool) (env : Env)
    (w : World) (is_up : bool) (error : option string) (w1 : World) :
  DomainChecker._perform_check (d_name domain) env w
  = (Returns (is_up, error), w1) ->
  exists w2 notes,
    DomainChecker._check_domain_record domain notify env w
    = (Returns (is_up, error), w2)
    /\ check_logs (db w2)
       = (check_logs (db w)
            ++ [mkCheckLog (check_logs_seq (db w) + 1) (d_id domain)
                  (clock env (S (clock_reads w)))
                  (if is_up then "up" else "down") error])%list
    /\ (forall r, In r (domains (db w2)) -> d_id r = d_id domain ->
          d_last_status r = Some (if is_up then "up" else "down")
          /\ d_last_error r = error
          /\ d_last_checked r = Some (clock env (clock_reads w)))
    /\ map d_id (domains (db w2)) = map d_id (domains (db w))
    /\ map d_name (domains (db w2)) = map d_name (domains (db w))
    /\ trace w2
       = (trace w
            ++ [Probe.request (d_name domain) env w;
                EvUpdateStatus (d_id domain)
                  (if is_up then "up" else "down") error;
                EvLogCheck (d_id domain)
                  (if is_up then "up" else "down") error]
            ++ notes)%list
    /\ Forall (fun e => is_notification e = true) notes.
Proof.
  intros Hp.
  eexists.
  exists (if notify
          then Check.notice (db w) domain (Check.previous_status domain)
                 is_up error
          else []).
  split; [apply (check_record_run _ notify _ _ _ _ _ Hp)|].
  pose proof (check_record_trace _ notify _ _ _ _ _ Hp) as Ht.
  apply perform_check_returns in Hp. destruct Hp as [-> _].
  split; [reflexivity|].
  split; [intros r; apply check_record_rows|].
  split; [cbn; apply update_keeps_ids|].
  split; [cbn; apply update_keeps_ids|].
  split; [exact Ht|].
  destruct notify; [apply notice_is_notification | constructor].
Qed.

(** When the request fails with an exception no clause of [_perform_check]
    catches, [_check_domain_record] ends with it before either write. *)
Lemma check_record_uncaught domain notify env w e :
  Probe.answer (d_name domain) env w = Failure e ->
  Probe.handled e = false ->
  DomainChecker._check_domain_record domain notify env w
  = (Raises e, Probe.sent (d_name domain) env w).
Proof.
  intros Ha He. unfold DomainChecker._check_domain_record. unfold bind at 1.
  now rewrite (perform_check_uncaught _ _ _ _ Ha He).
Qed.

(** C2, as stated, fails: not every invocation writes.  The request for
    [example.com] fails with a [ValueError], which no clause of
    [_perform_check] catches; [_check_domain_record] ends with it, the check
    log stays empty and the record stays unchecked. *)
Lemma check_record_no_write_counterexample :
  fst (DomainChecker._check_domain_record Scenario.example_com true
         Cases.value_error (Scenario.fresh Scenario.store_unchecked))
  = Raises (mkExn ValueError "label empty or too long")
  /\ check_logs
       (db (snd (DomainChecker._check_domain_record Scenario.example_com true
                   Cases.value_error (Scenario.fresh Scenario.store_unchecked))))
     = []%list
  /\ domains
       (db (snd (DomainChecker._check_domain_record Scenario.example_com true
                   Cases.value_error (Scenario.fresh Scenario.store_unchecked))))
     = [Scenario.example_com]%list.
Proof. split; [|split]; vm_compute; reflexivity. Qed.

(** C2, amended: an invocation writes exactly when the probe gives an
    outcome.  When the request is answered by a response or by an exception
    some clause of [_perform_check] catches, whatever the outcome and whether
    or not notification is enabled, [_check_domain_record] appends exactly
    one entry to the check log, sets [last_status], [last_error] and
    [last_checked] of the record with the domain's id, and does both before
    any notifying event: the trace grows by the request, the two writes, and
    then only notifying events.  When the request fails with any other
    exception, [_check_domain_record] ends with that exception and the store
    is as it was: no log entry, no status. *)
Theorem check_record_writes (domain : DomainRow) (notify : bool) (env : Env)
    (w : World) :
  (Probe.caught (Probe.answer (d_name domain) env w) = true ->
   exists is_up error w2 notes,
     DomainChecker._check_domain_record domain notify env w
     = (Returns (is_up, error), w2)
     /\ check_logs (db w2)
        = (check_logs (db w)
             ++ [mkCheckLog (check_logs_seq (db w) + 1) (d_id domain)
                   (clock env (S (clock_reads w)))
                   (if is_up then "up" else "down") error])%list
     /\ (forall r, In r (domains (db w2)) -> d_id r = d_id domain ->
           d_last_status r = Some (if is_up then "up" else "down")
           /\ d_last_error r = error
           /\ d_last_checked r = Some (clock env (clock_reads w)))
     /\ map d_id (domains (db w2)) = map d_id (domains (db w))
     /\ map d_name (domains (db w2)) = map d_name (domains (db w))
     /\ trace w2
        = (trace w
             ++ [Probe.request (d_name domain) env w;
                 EvUpdateStatus (d_id domain)
                   (if is_up then "up" else "down") error;
                 EvLogCheck (d_id domain)
                   (if is_up then "up" else "down") error]
             ++ notes)%list
     /\ Forall (fun e => is_notification e = true) notes)
  /\ (forall e,
        Probe.answer (d_name domain) env w = Failure e ->
        Probe.handled e = false ->
        exists w2,
          DomainChecker._check_domain_record domain notify env w
          = (Raises e, w2)
          /\ db w2 = db w
          /\ trace w2 = (trace w ++ [Probe.request (d_name domain) env w])%list).
Proof.
  split.
  - intros Hc.
    destruct (perform_check_caught (d_name domain) env w Hc)
      as ([is_up error] & Hp).
    exists is_up, error.
    exact (check_record_written domain notify env w is_up error _ Hp).
  - intros e Ha He. eexists.
    split; [exact (check_record_uncaught domain notify env w e Ha He)|].
    split; reflexivity.
Qed.

Lemma check_record_writes_witness :
  exists w2,
    DomainChecker._check_domain_record Scenario.example_com false
      (Scenario.answering (Failure (mkExn ServerTimeoutError "")))
      (Scenario.fresh Scenario.store_unchecked)
    = (Returns (false, Some "ServerTimeoutError"), w2)
    /\ check_logs (db w2)
       = [mkCheckLog 1 1 1001 "down" (Some "ServerTimeoutError")]
    /\ forall r, In r (domains (db w2)) -> d_id r = 1 ->
         d_last_status r = Some "down"
         /\ d_last_error r = Some "ServerTimeoutError"
         /\ d_last_checked r = Some 1000.
Proof.
  destruct (check_record_writes Scenario.example_com false
              (Scenario.answering (Failure (mkExn ServerTimeoutError "")))
              (Scenario.fresh Scenario.store_unchecked)) as [Hwrites _].
  destruct (Hwrites eq_refl)
    as (is_up & error & w2 & notes & Hrun & Hlog & Hrow & _).
  assert (Ho : (is_up, error) = (false, Some "ServerTimeoutError"%string)).
  { pose proof (check_record_run Scenario.example_com false
                  (Scenario.answering (Failure (mkExn ServerTimeoutError "")))
                  (Scenario.fresh Scenario.store_unchecked)
                  false (Some "ServerTimeoutError"%string) _ eq_refl) as H.
    rewrite H in Hrun. now injection Hrun as <- <-. }
  injection Ho as -> ->.
  exists w2. split; [exact Hrun|]. split; [exact Hlog | exact Hrow].
Defined.

(** C10: an outcome the probe returns is up exactly when it carries no
    error, and [_check_domain_record] stores it so: after an up outcome the
    record has the status [up] and a null [last_error], after a down outcome
    the status [down] and an error string. *)
Theorem outcome_up_iff_no_error (domain : DomainRow) (notify : bool)
    (env : Env) (w : World) (o : bool * option string) (w1 : World) :
  DomainChecker._perform_check (d_name domain) env w = (Returns o, w1) ->
  (fst o = true <-> snd o = None)
  /\ exists w2,
       DomainChecker._check_domain_record domain notify env w = (Returns o, w2)
       /\ forall r, In r (domains (db w2)) -> d_id r = d_id domain ->
            (fst o = true ->
             d_last_status r = Some "up" /\ d_last_error r = None)
            /\ (fst o = false ->
                d_last_status r = Some "down"
                /\ exists kind, d_last_error r = Some kind).
Proof.
  intros Hp. destruct o as [is_up error].
  pose proof (perform_check_returns _ _ _ _ _ Hp) as [_ Hshape].
  cbn [fst snd] in *.
  split.
  - destruct Hshape as [[-> ->]|[-> (kind & ->)]]; split; congruence.
  - eexists. split; [apply (check_record_run _ notify _ _ _ _ _ Hp)|].
    apply perform_check_returns in Hp. destruct Hp as [-> _].
    intros r Hin Hid.
    destruct (check_record_rows _ _ _ _ _ _ _ Hin Hid) as (Hs & He & _).
    rewrite Hs, He.
    destruct Hshape as [[-> ->]|[-> (kind & ->)]]; split;
      intros; try discriminate; eauto.
Qed.

Lemma outcome_up_iff_no_error_witness :
  exists w2,
    DomainChecker._check_domain_record Scenario.example_com_down true
      (Scenario.answering (Response 200)) (Scenario.fresh Scenario.store_down)
    = (Returns (true, None), w2)
    /\ forall r, In r (domains (db w2)) -> d_id r = 1 ->
         d_last_status r = Some "up" /\ d_last_error r = None.
Proof.
  destruct (outcome_up_iff_no_error Scenario.example_com_down true
              (Scenario.answering (Response 200))
              (Scenario.fresh Scenario.store_down) (true, None)
              (Probe.sent "example.com" (Scenario.answering (Response 200))
                 (Scenario.fresh Scenario.store_down)) eq_refl)
    as (_ & w2 & Hrun & Hrow).
  exists w2. split; [exact Hrun|].
  intros r Hin Hid. now apply (Hrow r Hin Hid).
Defined.

(** The records of the scenarios are the ones their stores hold. *)
Example scenario_records :
  Database.get_domain "example.com" Scenario.store_unchecked
  = Some Scenario.example_com
  /\ Database.get_domain "HTTP://example.com/" Scenario.store_down
     = Some Scenario.example_com_down.
Proof. split; reflexivity. Qed.

(** A domain first found up, then down, then up again: the first batch is
    silent, the second tells the subscriber it went down, the third that it
    recovered. *)
Example flapping_domain :
  notifications
    (trace (snd (Scenario.three_batches
                   (Scenario.answering_in_turn
                      [Response 200; Response 503; Response 200])
                   (Scenario.fresh Scenario.store_unchecked))))
  = [EvNotifyDowntime "example.com" "HTTP 503";
     EvSend 42 (NotificationService.downtime_text "example.com" "HTTP 503");
     EvNotifyRecovery "example.com";
     EvSend 42 (NotificationService.recovery_text "example.com")].
Proof. vm_compute. reflexivity. Qed.

(** ** The single check *)

Lemma get_domain_absent name st :
  (forall r, In r (domains st) -> d_name r <> Database._normalize_domain name) ->
  Database.get_domain name st = None.
Proof.
  unfold Database.get_domain. intros H.
  induction (domains st) as [|r rows IH]; cbn; [reflexivity|].
  destruct (String.eqb_spec (d_name r) (Database._normalize_domain name)) as [E|E].
  - exfalso. apply (H r); [now left | exact E].
  - apply IH. intros r' Hin. apply H. now right.
Qed.

(** C3: when no registered record has the normalized form of [name],
    [check_domain_by_name] raises its not-found error ([ValueError]) and
    leaves the world as it was: the four tables and their counters, and the
    trace, with no request made and the lock free again. *)
Theorem check_unregistered_not_found (name : string) (env : Env) (w : World) :
  locked w = false ->
  (forall r, In r (domains (db w)) ->
     d_name r <> Database._normalize_domain name) ->
  DomainChecker.check_domain_by_name name env w
  = (Raises (mkExn ValueError "Домен не найден"), w).
Proof.
  intros Hl Habs.
  unfold DomainChecker.check_domain_by_name, with_lock. rewrite Hl.
  unfold bind, query. cbn [db set_locked].
  rewrite (get_domain_absent _ _ Habs).
  unfold raise. destruct w; cbn in *. now subst.
Qed.

Lemma check_unregistered_not_found_witness :
  DomainChecker.check_domain_by_name "https://Example.org/"
    (Scenario.answering (Response 200)) (Scenario.fresh Scenario.store_down)
  = (Raises (mkExn ValueError "Домен не найден"),
     Scenario.fresh Scenario.store_down).
Proof.
  apply (check_unregistered_not_found "https://Example.org/"
           (Scenario.answering (Response 200))
           (Scenario.fresh Scenario.store_down)).
  - reflexivity.
  - intros r [<-|[]]. vm_compute. discriminate.
Defined.

(** ** Normalization of names *)

Section Strip.

Variable q : ascii -> bool.




Lemma rstrip_length s :
  (String.length (PyStr.rstrip_with q s) <= String.length s)%nat.
Proof.
  induction s as [|c s IH]; cbn; [lia|].
  destruct (PyStr.rstrip_with q s); [destruct (q c)|]; cbn in *; lia.
Qed.


Lemma rstrip_same_length s :
  String.length (PyStr.rstrip_with q s) = String.length s ->
  PyStr.rstrip_with q s = s.
Proof.
  induction s as [|c s IH]; cbn; [reflexivity|].
  pose proof (rstrip_length s) as Hl.
  destruct (PyStr.rstrip_with q s) as [|d r] eqn:E.
  - destruct (q c); cbn in *; [lia|].
    intros [= Hs]. destruct s; [reflexivity | discriminate].
  - cbn in *. intros [= Hs]. now rewrite IH.
Qed.









End Strip.
















Section StripTwice.

Variable q : ascii -> bool.





End StripTwice.

Lemma lower_char_idem c : PyStr.lower_char (PyStr.lower_char c) = PyStr.lower_char c.
Proof. destruct c as [[] [] [] [] [] [] [] []]; reflexivity. Qed.


Lemma lower_idem s : PyStr.lower (PyStr.lower s) = PyStr.lower s.
Proof. induction s; cbn; [reflexivity|]. now rewrite lower_char_idem, IHs. Qed.







(** ** The proxy pool *)

Section ProxyPoolFacts.

Local Open Scope list_scope.

Section SortedLists.

Context {A : Type} (R : A -> A -> Prop).

Lemma sorted_snoc_inv xs x :
  StronglySorted R (xs ++ [x]) ->
  StronglySorted R xs /\ Forall (fun y => R y x) xs.
Proof.
  induction xs as [|a xs IH]; cbn; intros H.
  - split; constructor.
  - apply StronglySorted_inv in H. destruct H as [Hs Ha].
    destruct (IH Hs) as [Hs' Hx].
    apply Forall_app in Ha. destruct Ha as [Ha Hax].
    split; constructor; auto. now inversion Hax.
Qed.

Lemma sorted_snoc xs x :
  StronglySorted R xs -> Forall (fun y => R y x) xs ->
  StronglySorted R (xs ++ [x]).
Proof.
  induction 1 as [|a xs Hs IH Ha]; cbn; intros Hx.
  - repeat constructor.
  - inversion Hx; subst. constructor; auto.
    apply Forall_app. split; auto.
Qed.

Lemma sorted_filter f xs :
  StronglySorted R xs -> StronglySorted R (filter f xs).
Proof.
  induction 1 as [|a xs Hs IH Ha]; cbn; [constructor|].
  destruct (f a); [|exact IH].
  constructor; [exact IH|].
  rewrite Forall_forall in *. intros y Hy. apply filter_In in Hy.
  now apply Ha.
Qed.

End SortedLists.

Lemma sorted_map_proxy f xs :
  (forall r, p_id (f r) = p_id r /\ p_created_at (f r) = p_created_at r) ->
  StronglySorted ProxyPool.before xs ->
  StronglySorted ProxyPool.before (map f xs).
Proof.
  intros Hf. induction 1 as [|a xs Hs IH Ha]; cbn; constructor; auto.
  rewrite Forall_forall in *. intros y Hy.
  apply in_map_iff in Hy. destruct Hy as (r & <- & Hr).
  unfold ProxyPool.before.
  destruct (Hf a) as [-> ->], (Hf r) as [-> ->]. now apply Ha.
Qed.

(** In a pool kept in the order of addition, the row that
    [ORDER BY created_at DESC LIMIT 1] selects is the last one. *)
Lemma first_by_newer_snoc xs x :
  Forall (fun y => ProxyPool.before y x) xs ->
  Sql.first_by Database.newer (xs ++ [x]) = Some x.
Proof.
  induction 1 as [|a xs [Ha _] _ IH]; cbn; [reflexivity|].
  rewrite IH. unfold Database.newer.
  apply Z.ltb_lt in Ha. now rewrite Ha.
Qed.

(** Activating by the key of the last row touches the last row only. *)
Lemma activate_last xs x :
  Forall (fun y => ProxyPool.before y x) xs ->
  map (fun r => if p_id r =? p_id x then set_active true r else r) (xs ++ [x])
  = xs ++ [set_active true x].
Proof.
  induction 1 as [|a xs [_ Ha] _ IH]; cbn.
  - now rewrite Z.eqb_refl.
  - rewrite IH. destruct (Z.eqb_spec (p_id a) (p_id x)); [lia | reflexivity].
Qed.

Lemma add_proxy_ok now host port username password country st :
  ProxyPool.pool_ok st ->
  Forall (fun r => p_created_at r < now) (proxies st) ->
  ProxyPool.pool_ok
    (snd (Database.add_proxy now host port username password country st)).
Proof.
  intros (Hs & Hid & _) Hnow. unfold ProxyPool.pool_ok, Database.add_proxy.
  cbn [snd proxies proxies_seq].
  split; [|split].
  - apply sorted_snoc.
    + apply sorted_map_proxy; [intros r; split; reflexivity | exact Hs].
    + rewrite Forall_forall in *. intros y Hy.
      apply in_map_iff in Hy. destruct Hy as (r & <- & Hr).
      unfold ProxyPool.before. cbn.
      specialize (Hid r Hr). specialize (Hnow r Hr). lia.
  - apply Forall_app. split.
    + rewrite Forall_forall in *. intros y Hy.
      apply in_map_iff in Hy. destruct Hy as (r & <- & Hr).
      cbn. specialize (Hid r Hr). lia.
    + repeat constructor. cbn. lia.
  - constructor; [|reflexivity].
    rewrite Forall_forall. intros y Hy.
    apply in_map_iff in Hy. now destruct Hy as (r & <- & Hr).
Qed.

Lemma remove_proxy_rows proxy_id st :
  proxies (snd (Database.remove_proxy proxy_id st)) = proxies st
  \/ exists remaining,
       remaining = filter (fun r => negb (p_id r =? proxy_id)) (proxies st)
       /\ proxies (snd (Database.remove_proxy proxy_id st))
          = map (fun r =>
                   match option_map p_id (Sql.first_by Database.newer remaining) with
                   | Some i => if p_id r =? i then set_active true r else r
                   | None => r
                   end) remaining.
Proof.
  unfold Database.remove_proxy.
  destruct (_ <? _)%nat; cbn; [right | left; reflexivity].
  eexists. split; reflexivity.
Qed.

Lemma remove_proxy_seq proxy_id st :
  proxies_seq (snd (Database.remove_proxy proxy_id st)) = proxies_seq st.
Proof.
  unfold Database.remove_proxy. destruct (_ <? _)%nat; reflexivity.
Qed.

Lemma remove_proxy_ok proxy_id st :
  ProxyPool.pool_ok st ->
  ProxyPool.pool_ok (snd (Database.remove_proxy proxy_id st)).
Proof.
  intros (Hs & Hid & Ha). unfold ProxyPool.pool_ok.
  rewrite remove_proxy_seq.
  destruct (remove_proxy_rows proxy_id st) as [-> | (remaining & Hrem & ->)];
    [auto|].
  assert (Hsr : StronglySorted ProxyPool.before remaining)
    by (subst; now apply sorted_filter).
  assert (Hidr : Forall (fun r => p_id r <= proxies_seq st) remaining).
  { subst. rewrite Forall_forall in *. intros r Hr.
    apply filter_In in Hr. now apply Hid. }
  assert (Hinit : forall init last,
             remaining = init ++ [last] ->
             Forall (fun r => p_is_active r = false) init).
  { intros init last E. rewrite Hrem in E.
    inversion Ha as [Hnil | init0 last0 Hi Hl Hrows].
    - rewrite <- Hnil in E. cbn in E. now destruct init.
    - rewrite <- Hrows, filter_app in E. cbn in E.
      assert (Hf : Forall (fun r => p_is_active r = false)
                     (filter (fun r => negb (p_id r =? proxy_id)) init0)).
      { rewrite Forall_forall in *. intros r Hr.
        apply filter_In in Hr. now apply Hi. }
      destruct (negb (p_id last0 =? proxy_id)).
      + apply app_inj_tail in E. destruct E as [<- _]. exact Hf.
      + rewrite app_nil_r in E. rewrite E in Hf.
        apply Forall_app in Hf. tauto. }
  destruct remaining as [|r0 rest] using rev_ind; [cbn; repeat split; constructor|].
  clear IHrest. rename rest into init, r0 into last.
  apply sorted_snoc_inv in Hsr. destruct Hsr as [Hsi Hbl].
  rewrite (first_by_newer_snoc _ _ Hbl). cbn [option_map].
  rewrite (activate_last _ _ Hbl).
  split; [|split].
  - apply sorted_snoc; [exact Hsi|].
    rewrite Forall_forall in *. intros y Hy. exact (Hbl y Hy).
  - apply Forall_app in Hidr. destruct Hidr as [Hi Hl].
    apply Forall_app. split; [exact Hi|].
    inversion Hl; subst. repeat constructor. assumption.
  - constructor; [|reflexivity]. now apply (Hinit init last).
Qed.

Lemma remove_proxy_older proxy_id st t :
  Forall (fun r => p_created_at r < t) (proxies st) ->
  Forall (fun r => p_created_at r < t)
         (proxies (snd (Database.remove_proxy proxy_id st))).
Proof.
  intros H.
  destruct (remove_proxy_rows proxy_id st) as [-> | (remaining & Hrem & ->)];
    [exact H|].
  rewrite Forall_forall in *. intros y Hy.
  apply in_map_iff in Hy. destruct Hy as (r & <- & Hr).
  subst remaining. apply filter_In in Hr. destruct Hr as [Hr _].
  specialize (H r Hr).
  destruct (option_map _ _); [destruct (_ =? _)|]; exact H.
Qed.

Lemma run_ok ops :
  forall st,
    ProxyPool.pool_ok st ->
    ProxyPool.clock_advances ops ->
    (forall t, In t (ProxyPool.add_times ops) ->
       Forall (fun r => p_created_at r < t) (proxies st)) ->
    ProxyPool.pool_ok (ProxyPool.run ops st).
Proof.
  unfold ProxyPool.clock_advances, ProxyPool.run.
  induction ops as [|o ops IH]; intros st Hok Hclock Hold; [exact Hok|].
  cbn [fold_left]. destruct o as [now host port u pw c | proxy_id];
    cbn [ProxyPool.add_times ProxyPool.apply_op] in *.
  - apply StronglySorted_inv in Hclock. destruct Hclock as [Hclock Hnow].
    apply IH.
    + apply add_proxy_ok; [exact Hok|]. apply Hold. now left.
    + exact Hclock.
    + intros t Ht. unfold Database.add_proxy. cbn [snd proxies].
      apply Forall_app. split.
      * specialize (Hold t (or_intror Ht)).
        rewrite Forall_forall in *. intros y Hy.
        apply in_map_iff in Hy. destruct Hy as (r & <- & Hr). cbn. now apply Hold.
      * repeat constructor. cbn. rewrite Forall_forall in Hnow. now apply Hnow.
  - apply IH.
    + now apply remove_proxy_ok.
    + exact Hclock.
    + intros t Ht. apply remove_proxy_older. now apply Hold.
Qed.





Example proxy_pool_run :
  map (fun r => (p_id r, p_is_active r))
      (proxies (ProxyPool.run Scenario.proxy_ops empty_store))
  = [(2, true)].
Proof. reflexivity. Qed.

End ProxyPoolFacts.

(** ** Concurrent check operations *)

Section LoopFacts.

Local Open Scope list_scope.

(** What [with_lock] does at the ends of the block: it waits while the lock
    is held and takes it otherwise, and it frees it on the way out. *)
Lemma enter_spec env w :
  Loop.enter env w = if locked w then None else Some (set_locked true w).
Proof. unfold Loop.enter, with_lock. now destruct (locked w). Qed.


Lemma task_step_pending env o w :
  Loop.task_step env (Loop.Pending o) w
  = if locked w then None
    else Some (Loop.Inside match o with
                           | Loop.CheckAll => Loop.SList
                           | Loop.CheckOne name => Loop.SLookup name
                           end,
               set_locked true w).
Proof. cbn [Loop.task_step]. rewrite enter_spec. now destruct (locked w). Qed.


Lemma quiet_perform_check domain : Loop.quiet (DomainChecker._perform_check domain).
Proof.
  intros env w. rewrite perform_check_run.
  destruct (Probe.answer domain env w) as [status|e].
  - split; [reflexivity | discriminate].
  - pose proof (handlers_spec e) as H.
    destruct (Probe.handled e).
    + destruct H as (kind & -> & _). split; [reflexivity | discriminate].
    + rewrite H. split; [reflexivity | discriminate].
Qed.

Lemma quiet_update domain_id status error :
  Loop.quiet (DomainChecker.db_update_domain_status domain_id status error).
Proof. intros env w. split; [reflexivity | discriminate]. Qed.

Lemma quiet_log domain_id status error :
  Loop.quiet (DomainChecker.db_log_check domain_id status error).
Proof. intros env w. split; [reflexivity | discriminate]. Qed.

Lemma quiet_notify domain notify previous is_up error :
  Loop.quiet (DomainChecker.notify_decision domain notify previous
           (Check.status_of is_up) error).
Proof.
  intros env w. rewrite notify_decision_run.
  split; [reflexivity | discriminate].
Qed.

Lemma quiet_lookup name :
  Loop.quiet (record <- query (Database.get_domain name) ;;
         match record with
         | None => raise (mkExn ValueError "Домен не найден")
         | Some record => ret record
         end).
Proof.
  intros env w. unfold bind, query.
  destruct (Database.get_domain name (db w)); split;
    try reflexivity; discriminate.
Qed.

Lemma after_quiet {A} (m : M A) next env w t' w' :
  Loop.quiet m ->
  Loop.after m next env w = Some (t', w') ->
  Loop.inside t' = true /\ locked w' = locked w.
Proof.
  intros Hq. specialize (Hq env w). unfold Loop.after.
  destruct (m env w) as [[a|e|] w1]; cbn in Hq; destruct Hq as [Hl Hw];
    intros [= <- <-]; auto.
Qed.

(** What a segment does to the lock. *)
Lemma task_step_lock env t w t' w' :
  Loop.task_step env t w = Some (t', w') ->
  match Loop.action_of t with
  | Loop.Acquire =>
      Loop.inside t = false /\ locked w = false
      /\ Loop.inside t' = true /\ locked w' = true
  | Loop.Work =>
      Loop.inside t = true /\ Loop.inside t' = true /\ locked w' = locked w
  | Loop.Release =>
      Loop.inside t = true /\ Loop.inside t' = false /\ locked w' = false
  end.
Proof.
  destruct t as [o | st | r];
    [rewrite task_step_pending; cbn [Loop.action_of]
    | cbn [Loop.task_step Loop.action_of] | cbn [Loop.task_step] ].
  - destruct (locked w) eqn:E; [discriminate|].
    intros [= <- <-]. auto.
  - destruct st as [ |todo|name|d notify k|d notify o k|d notify o k
                    |d notify o k|r]; cbn [Loop.inside].
    + intros H. apply after_quiet in H; [tauto|].
      intros env' w0. split; [reflexivity | discriminate].
    + destruct todo; intros [= <- <-]; auto.
    + intros H. apply after_quiet in H; [tauto | apply quiet_lookup].
    + intros H. apply after_quiet in H; [tauto | apply quiet_perform_check].
    + intros H. apply after_quiet in H; [tauto | apply quiet_update].
    + intros H. apply after_quiet in H; [tauto | apply quiet_log].
    + intros H. apply after_quiet in H; [tauto | apply quiet_notify].
    + intros [= <- <-]. auto.
  - discriminate.
Qed.

Lemma nth_error_update_same {A} i (x : A) l t :
  nth_error l i = Some t -> nth_error (Loop.update i x l) i = Some x.
Proof.
  revert i. induction l as [|y l IH]; intros [|i]; cbn; try discriminate; auto.
Qed.

Lemma nth_error_update_other {A} i j (x : A) l :
  i <> j -> nth_error (Loop.update i x l) j = nth_error l j.
Proof.
  revert i j. induction l as [|y l IH]; intros [|i] [|j] H; cbn; auto.
  congruence.
Qed.

Lemma serial_from_snoc cur sch i a :
  Loop.serial_from cur (sch ++ [(i, a)])
  = match Loop.serial_from cur sch with
    | Some cur' => Loop.serial_from cur' [(i, a)]
    | None => None
    end.
Proof.
  revert cur. induction sch as [|[j b] sch IH]; intros cur; cbn [app].
  - cbn. destruct a, cur; try reflexivity; destruct (Nat.eqb i n); reflexivity.
  - cbn [Loop.serial_from].
    destruct b, cur; try reflexivity; try apply IH;
      destruct (Nat.eqb j n); try reflexivity; apply IH.
Qed.

Lemma invariant_issue ops w :
  locked w = false -> Loop.invariant (Loop.issue ops w).
Proof.
  intros Hl. exists None. cbn. repeat split; auto.
  intros i t H. apply nth_error_In, in_map_iff in H.
  now destruct H as (o & <- & _).
Qed.

Lemma invariant_step env s s' :
  Loop.invariant s -> Loop.step env s s' -> Loop.invariant s'.
Proof.
  intros (cur & Hser & Hcur) Hstep.
  destruct Hstep as [s i t t' w' Hi Hts].
  pose proof (task_step_lock _ _ _ _ _ Hts) as Hlock.
  unfold Loop.invariant. cbn [Loop.schedule Loop.world Loop.tasks].
  rewrite serial_from_snoc, Hser.
  destruct (Loop.action_of t) eqn:Ha.
  - (* the coroutine enters *)
    destruct Hlock as (Hout & Hfree & Hin & Hheld).
    destruct cur as [j|]; [destruct Hcur as [Hl _]; congruence|].
    destruct Hcur as [_ Hnone].
    exists (Some i). cbn. repeat split; auto.
    + exists t'. split; [now apply (nth_error_update_same _ _ _ t) | exact Hin].
    + intros j u Hji Hj. rewrite nth_error_update_other in Hj by auto.
      now apply (Hnone j).
  - (* the coroutine goes on inside *)
    destruct Hlock as (Hin & Hin' & Hsame).
    destruct cur as [j|].
    + destruct Hcur as (Hl & _ & Hothers).
      assert (i = j).
      { destruct (Nat.eq_dec i j) as [E|E]; [exact E|].
        rewrite (Hothers i t E Hi) in Hin. discriminate. }
      subst j. exists (Some i). cbn. rewrite Nat.eqb_refl.
      repeat split; [congruence | |].
      * exists t'. split; [now apply (nth_error_update_same _ _ _ t) | exact Hin'].
      * intros j u Hji Hj. rewrite nth_error_update_other in Hj by auto.
        now apply (Hothers j).
    + destruct Hcur as [_ Hnone]. rewrite (Hnone i t Hi) in Hin. discriminate.
  - (* the coroutine leaves *)
    destruct Hlock as (Hin & Hout & Hfree).
    destruct cur as [j|].
    + destruct Hcur as (Hl & _ & Hothers).
      assert (i = j).
      { destruct (Nat.eq_dec i j) as [E|E]; [exact E|].
        rewrite (Hothers i t E Hi) in Hin. discriminate. }
      subst j. exists None. cbn. rewrite Nat.eqb_refl.
      repeat split; [exact Hfree|].
      intros j u Hj. destruct (Nat.eq_dec i j) as [<-|E].
      * rewrite (nth_error_update_same _ _ _ t Hi) in Hj. now injection Hj as <-.
      * rewrite nth_error_update_other in Hj by auto. now apply (Hothers j).
    + destruct Hcur as [_ Hnone]. rewrite (Hnone i t Hi) in Hin. discriminate.
Qed.

Lemma invariant_steps env s s' :
  Loop.invariant s -> Loop.steps env s s' -> Loop.invariant s'.
Proof.
  intros Hinv Hsteps. induction Hsteps as [|s s' s'' _ IH Hstep]; auto.
  apply (invariant_step env s' s''); auto.
Qed.

Lemma play_steps env order s : Loop.steps env s (Schedules.play env order s).
Proof.
  revert s. induction order as [|i order IH]; intros s; cbn; [constructor|].
  destruct (nth_error (Loop.tasks s) i) as [t|] eqn:Hi; [|apply IH].
  destruct (Loop.task_step env t (Loop.world s)) as [[t' w']|] eqn:Hts;
    [|apply IH].
  assert (Hstep : Loop.steps env s
            (Loop.mkSystem w' (Loop.update i t' (Loop.tasks s))
               (Loop.schedule s ++ [(i, Loop.action_of t)]))).
  { eapply Loop.steps_snoc; [apply Loop.steps_refl|].
    now apply (Loop.step_task env s i t t' w'). }
  clear Hi Hts.
  revert Hstep. generalize (Loop.mkSystem w' (Loop.update i t' (Loop.tasks s))
                               (Loop.schedule s ++ [(i, Loop.action_of t)])).
  intros s1 H1. specialize (IH s1).
  clear -H1 IH. induction IH as [|a b c _ IH2 Hbc]; [exact H1|].
  eapply Loop.steps_snoc; [apply IH2; exact H1 | exact Hbc].
Qed.


(** *** The coroutines and the program *)

Section Refinement.

Variable env : Env.





Lemma check_record_raises d notify w e w1 :
  DomainChecker._perform_check (d_name d) env w = (Raises e, w1) ->
  DomainChecker._check_domain_record d notify env w = (Raises e, w1).
Proof.
  intros Hp. unfold DomainChecker._check_domain_record.
  unfold bind at 1. now rewrite Hp.
Qed.


Lemma for_each_cons d rest w :
  for_each (d :: rest)
    (fun domain => DomainChecker._check_domain_record domain true ;;; ret tt)
    env w
  = match DomainChecker._check_domain_record d true env w with
    | (Returns _, w1) =>
        for_each rest
          (fun domain =>
             DomainChecker._check_domain_record domain true ;;; ret tt)
          env w1
    | (Raises e, w1) => (Raises e, w1)
    | (Waits, w1) => (Waits, w1)
    end.
Proof.
  cbn [for_each]. unfold bind at 1 2.
  destruct (DomainChecker._check_domain_record d true env w) as [[o|e|] w1];
    reflexivity.
Qed.

Lemma check_record_never_waits d notify w :
  fst (DomainChecker._check_domain_record d notify env w) <> Waits.
Proof.
  destruct (DomainChecker._perform_check (d_name d) env w)
    as [[[is_up error]|e|] w1] eqn:Hp.
  - now rewrite (check_record_run _ notify _ _ _ _ _ Hp).
  - now rewrite (check_record_raises _ notify _ _ _ Hp).
  - exfalso. pose proof (quiet_perform_check (d_name d) env w) as [_ H].
    rewrite Hp in H. now apply H.
Qed.


Lemma for_each_never_waits domains w :
  fst (for_each domains
         (fun domain =>
            DomainChecker._check_domain_record domain true ;;; ret tt) env w)
  <> Waits.
Proof.
  revert w. induction domains as [|d rest IH]; intros w; [discriminate|].
  rewrite for_each_cons.
  pose proof (check_record_never_waits d true w) as Hw.
  destruct (DomainChecker._check_domain_record d true env w)
    as [[o|e|] w1]; cbn in Hw |- *; [apply IH | discriminate | contradiction].
Qed.

Lemma check_domain_by_name_run name w :
  locked w = false ->
  DomainChecker.check_domain_by_name name env w
  = match Database.get_domain name (db w) with
    | None => (Raises (mkExn ValueError "Домен не найден"), w)
    | Some record =>
        match DomainChecker._check_domain_record record false env
                (set_locked true w) with
        | (Waits, w1) => (Waits, w1)
        | (r, w1) => (r, set_locked false w1)
        end
    end.
Proof.
  intros Hl. unfold DomainChecker.check_domain_by_name, with_lock.
  rewrite Hl. unfold bind at 1. unfold query at 1. cbn [db set_locked].
  destruct (Database.get_domain name (db w)); [reflexivity|].
  unfold raise, set_locked. destruct w; cbn in *. now subst.
Qed.

Lemma check_all_domains_run w :
  locked w = false ->
  DomainChecker.check_all_domains env w
  = match for_each (Database.list_domains (db w))
            (fun domain =>
               DomainChecker._check_domain_record domain true ;;; ret tt)
            env (set_locked true w) with
    | (Waits, w1) => (Waits, w1)
    | (r, w1) => (r, set_locked false w1)
    end.
Proof.
  intros Hl. unfold DomainChecker.check_all_domains, with_lock.
  rewrite Hl. reflexivity.
Qed.



End Refinement.

(** ** The interleaved run and the operations run whole *)

Section SerialFacts.

Local Open Scope list_scope.

Variable env : Env.











End SerialFacts.



(** Both checks of the scenario resumed in turn until they are done: the
    single check got the lock first, and the world is the one
    [check_domain_by_name] and then [check_all_domains] leave. *)
Example two_checks_run_whole :
  Loop.tasks Cases.two_checks_done
  = [Loop.Finished (Returns None);
     Loop.Finished (Returns (Some (true, None)))]
  /\ Loop.released (Loop.schedule Cases.two_checks_done) = [1; 0]%nat
  /\ Loop.world Cases.two_checks_done
     = snd (DomainChecker.check_all_domains (Scenario.answering (Response 200))
              (snd (DomainChecker.check_domain_by_name "example.com"
                      (Scenario.answering (Response 200))
                      (Scenario.fresh Scenario.store_down)))).
Proof. split; [|split]; vm_compute; reflexivity. Qed.

Example two_checks_schedule :
  Loop.schedule Scenario.two_checks
  = [(1, Loop.Acquire); (1, Loop.Work); (1, Loop.Work); (1, Loop.Work);
     (1, Loop.Work); (1, Loop.Work); (1, Loop.Release);
     (0, Loop.Acquire); (0, Loop.Work); (0, Loop.Work); (0, Loop.Work)]%nat.
Proof. vm_compute. reflexivity. Qed.

End LoopFacts.

(* ================================================================== *)
(** * Further properties *)
(* ================================================================== *)

(** ** Queries *)

Section SqlFacts.

Local Open Scope list_scope.

Context {A : Type}.

Lemma first_by_in (before : A -> A -> bool) rows r :
  Sql.first_by before rows = Some r -> In r rows.
Proof.
  revert r. induction rows as [|a rows IH]; cbn; [discriminate|].
  intros r. destruct (Sql.first_by before rows) as [r'|].
  - destruct (before r' a); intros [= <-]; auto.
  - intros [= <-]. now left.
Qed.

Lemma first_by_none (before : A -> A -> bool) rows :
  Sql.first_by before rows = None <-> rows = [].
Proof.
  split; [|now intros ->].
  destruct rows as [|a rows]; cbn; [reflexivity|].
  destruct (Sql.first_by before rows) as [r'|]; [destruct (before r' a)|];
    discriminate.
Qed.

(** Under an ordering, the row [first_by] selects has no row before it. *)
Lemma first_by_first (before : A -> A -> bool) rows r :
  (forall x, before x x = false) ->
  (forall x y, before x y = true -> before y x = false) ->
  (forall x y z, before x y = false -> before y z = false ->
                 before x z = false) ->
  Sql.first_by before rows = Some r ->
  forall x, In x rows -> before x r = false.
Proof.
  intros Hirr Hasym Hneg. revert r.
  induction rows as [|a rows IH]; cbn; [discriminate|].
  intros r. destruct (Sql.first_by before rows) as [r'|] eqn:E.
  - destruct (before r' a) eqn:Eb; intros [= <-]; intros x [<-|Hx]; auto.
    eapply Hneg; [apply (IH r' eq_refl x Hx) | exact Eb].
  - apply first_by_none in E. subst rows. intros [= <-] x [<-|[]]. apply Hirr.
Qed.

Lemma insert_by_perm (le : A -> A -> bool) x rows :
  Permutation (Sql.insert_by le x rows) (x :: rows).
Proof.
  induction rows as [|r rows IH]; cbn; [reflexivity|].
  destruct (le r x); [|reflexivity].
  rewrite IH. apply perm_swap.
Qed.

Lemma order_by_perm (le : A -> A -> bool) rows :
  Permutation (Sql.order_by le rows) rows.
Proof.
  unfold Sql.order_by.
  assert (H : forall acc,
             Permutation (fold_left (fun acc r => Sql.insert_by le r acc) rows acc)
                         (acc ++ rows)).
  { induction rows as [|r rows IH]; intros acc; cbn.
    - now rewrite app_nil_r.
    - etransitivity; [apply IH|].
      etransitivity; [apply Permutation_app_tail, insert_by_perm|].
      cbn. apply Permutation_middle. }
  apply (H []).
Qed.

Lemma insert_by_sorted (le : A -> A -> bool) x rows :
  (forall a b, le a b = false -> le b a = true) ->
  Sorted (fun a b => le a b = true) rows ->
  Sorted (fun a b => le a b = true) (Sql.insert_by le x rows).
Proof.
  intros Htot. induction 1 as [|r rows Hs IH Hr]; cbn; [repeat constructor|].
  destruct (le r x) eqn:E.
  - constructor; [exact IH|].
    destruct rows as [|r' rows]; cbn; [now constructor|].
    destruct (le r' x); constructor; auto. now inversion Hr.
  - constructor; [now constructor | constructor; now apply Htot].
Qed.

Lemma order_by_sorted (le : A -> A -> bool) rows :
  (forall a b, le a b = false -> le b a = true) ->
  Sorted (fun a b => le a b = true) (Sql.order_by le rows).
Proof.
  intros Htot. unfold Sql.order_by.
  assert (H : forall acc,
             Sorted (fun a b => le a b = true) acc ->
             Sorted (fun a b => le a b = true)
                    (fold_left (fun acc r => Sql.insert_by le r acc) rows acc)).
  { induction rows as [|r rows IH]; intros acc Hacc; cbn; [exact Hacc|].
    apply IH. now apply insert_by_sorted. }
  apply H. constructor.
Qed.

End SqlFacts.

(** ** The domain table *)

Section DomainFacts.

Local Open Scope list_scope.

Lemma find_app {A} (f : A -> bool) l1 l2 :
  find f (l1 ++ l2) = match find f l1 with Some x => Some x | None => find f l2 end.
Proof. induction l1 as [|a l1 IH]; cbn; [reflexivity|]. now destruct (f a). Qed.

Lemma find_none_existsb {A} (f : A -> bool) l :
  existsb f l = false -> find f l = None.
Proof.
  induction l as [|a l IH]; cbn; [reflexivity|].
  destruct (f a); [discriminate | exact IH].
Qed.

Lemma find_some_existsb {A} (f : A -> bool) l :
  existsb f l = true -> exists x, find f l = Some x /\ f x = true.
Proof.
  induction l as [|a l IH]; cbn; [discriminate|].
  destruct (f a) eqn:E; [eauto | exact IH].
Qed.

(** X1: a domain is found again under the string it was added with: after
    [add_domain name], [get_domain name] returns a record whose name is the
    normalized [name].  A record that was already there is the one returned,
    untouched; a new one is appended with the status [unknown] and no error
    or check time. *)
Theorem add_then_get_domain (name : string) (st : Store) :
  exists r,
    Database.get_domain name (Database.add_domain name st) = Some r
    /\ d_name r = Database._normalize_domain name
    /\ (forall r0, Database.get_domain name st = Some r0 -> r = r0)
    /\ (Database.get_domain name st = None ->
        d_last_status r = Some "unknown"
        /\ d_last_error r = None /\ d_last_checked r = None
        /\ domains (Database.add_domain name st) = domains st ++ [r]).
Proof.
  unfold Database.get_domain, Database.add_domain.
  set (key := Database._normalize_domain name). cbn [domains].
  destruct (existsb (fun r => String.eqb (d_name r) key) (domains st)) eqn:E.
  - destruct (find_some_existsb _ _ E) as (r & Hf & Hr).
    exists r. rewrite Hf. repeat split.
    + now apply String.eqb_eq in Hr.
    + now intros r0 [= <-].
    + discriminate.
    + discriminate.
    + discriminate.
    + discriminate.
  - apply find_none_existsb in E. cbn [domains].
    rewrite find_app, E. cbn. rewrite String.eqb_refl.
    eexists. repeat split. discriminate.
Qed.

Lemma sorted_map_filter {A} (g : A -> Z) (f : A -> bool) rows :
  StronglySorted Z.lt (map g rows) ->
  StronglySorted Z.lt (map g (filter f rows)).
Proof.
  induction rows as [|a rows IH]; cbn; [constructor|].
  intros H. apply StronglySorted_inv in H. destruct H as [Hs Ha].
  destruct (f a); [|auto]. cbn. constructor; [auto|].
  rewrite Forall_forall in *. intros y Hy.
  apply in_map_iff in Hy. destruct Hy as (x & <- & Hx).
  apply filter_In in Hx. apply Ha, in_map, Hx.
Qed.

Lemma nodup_map_filter {A B} (g : A -> B) (f : A -> bool) rows :
  NoDup (map g rows) -> NoDup (map g (filter f rows)).
Proof.
  induction rows as [|a rows IH]; cbn; [constructor|].
  intros H. inversion H as [|x l Hn Hd]; subst.
  destruct (f a); [|auto]. cbn. constructor; [|auto].
  intros Hin. apply Hn. apply in_map_iff in Hin.
  destruct Hin as (x & <- & Hx). apply filter_In in Hx. apply in_map, Hx.
Qed.

Lemma forall_map_filter {A} (g : A -> Z) (f : A -> bool) (P : Z -> Prop) rows :
  Forall P (map g rows) -> Forall P (map g (filter f rows)).
Proof.
  rewrite !Forall_forall. intros H y Hy.
  apply in_map_iff in Hy. destruct Hy as (x & <- & Hx).
  apply filter_In in Hx. apply H, in_map, Hx.
Qed.

Lemma sorted_lt_nodup l : StronglySorted Z.lt l -> NoDup l.
Proof.
  induction 1 as [|a l Hs IH Ha]; constructor; [|exact IH].
  intros Hin. rewrite Forall_forall in Ha. specialize (Ha a Hin). lia.
Qed.

Lemma add_domain_ok name st :
  DomainTable.table_ok st -> DomainTable.table_ok (Database.add_domain name st).
Proof.
  intros (Hs & Hid & Hn). unfold Database.add_domain.
  set (key := Database._normalize_domain name).
  unfold DomainTable.table_ok. cbn [domains domains_seq].
  destruct (existsb (fun r => String.eqb (d_name r) key) (domains st)) eqn:E.
  { split; [exact Hs|]. split; [|exact Hn].
    rewrite Forall_forall in *. intros y Hy. specialize (Hid y Hy). lia. }
  rewrite !map_app. cbn [map d_id d_name].
  split; [|split].
  - apply sorted_snoc; [exact Hs|].
    rewrite Forall_forall in *. intros y Hy. specialize (Hid y Hy). lia.
  - apply Forall_app. split; [|repeat constructor; lia].
    rewrite Forall_forall in *. intros y Hy. specialize (Hid y Hy). lia.
  - rewrite <- (rev_involutive (map d_name (domains st) ++ [key])).
    apply NoDup_rev. rewrite rev_app_distr. cbn.
    constructor; [|now apply NoDup_rev].
    rewrite <- in_rev. intros Hin. apply in_map_iff in Hin.
    destruct Hin as (r & Hr & Hin).
    assert (existsb (fun r => String.eqb (d_name r) key) (domains st) = true).
    { apply existsb_exists. exists r. split; [exact Hin|].
      now apply String.eqb_eq. }
    congruence.
Qed.

Lemma remove_domain_ok fk name st :
  DomainTable.table_ok st ->
  DomainTable.table_ok (snd (Database.remove_domain fk name st)).
Proof.
  intros (Hs & Hid & Hn). unfold DomainTable.table_ok, Database.remove_domain.
  cbn [snd domains domains_seq].
  split; [|split].
  - now apply sorted_map_filter.
  - now apply forall_map_filter.
  - now apply nodup_map_filter.
Qed.

Lemma update_domain_ok now domain_id status error st :
  DomainTable.table_ok st ->
  DomainTable.table_ok
    (Database.update_domain_status now domain_id status error st).
Proof.
  intros (Hs & Hid & Hn). unfold DomainTable.table_ok.
  destruct (update_keeps_ids now domain_id status error st) as [-> ->].
  now repeat split.
Qed.

Lemma domain_run_ok fk ops :
  forall st, DomainTable.table_ok st ->
             DomainTable.table_ok (DomainTable.run fk ops st).
Proof.
  unfold DomainTable.run.
  induction ops as [|o ops IH]; intros st Hok; [exact Hok|].
  cbn [fold_left]. apply IH. destruct o; cbn [DomainTable.apply_op].
  - now apply add_domain_ok.
  - now apply remove_domain_ok.
  - now apply update_domain_ok.
  - exact Hok.
Qed.

(** X2: whatever sequence of [add_domain], [remove_domain],
    [update_domain_status] and [log_check] calls runs on an empty domain
    table, no two rows have the same name and no two the same id: adding a
    name that is there leaves one record. *)
Theorem domain_names_unique (foreign_keys : bool)
    (ops : list DomainTable.domain_op) (st : Store) :
  domains st = [] ->
  NoDup (map d_name (domains (DomainTable.run foreign_keys ops st)))
  /\ NoDup (map d_id (domains (DomainTable.run foreign_keys ops st))).
Proof.
  intros Hempty.
  destruct (domain_run_ok foreign_keys ops st) as (Hs & _ & Hn).
  { unfold DomainTable.table_ok. rewrite Hempty. repeat split; constructor. }
  split; [exact Hn | now apply sorted_lt_nodup].
Qed.

Lemma domain_names_unique_witness :
  NoDup (map d_name (domains (DomainTable.run false Cases.domain_ops empty_store)))
  /\ NoDup (map d_id (domains (DomainTable.run false Cases.domain_ops empty_store))).
Proof.
  apply (domain_names_unique false Cases.domain_ops empty_store).
  reflexivity.
Defined.

Example domain_ops_run :
  map (fun r => (d_id r, d_name r, d_last_status r))
      (domains (DomainTable.run false Cases.domain_ops empty_store))
  = [(1, "example.com", Some "up"); (4, "other.org", Some "unknown")]
  /\ domains_seq (DomainTable.run false Cases.domain_ops empty_store) = 4.
Proof. split; reflexivity. Qed.

Lemma find_filter_keep {A} (g h : A -> bool) rows :
  (forall x, g x = true -> h x = true) ->
  find g (filter h rows) = find g rows.
Proof.
  intros H. induction rows as [|a rows IH]; cbn; [reflexivity|].
  destruct (h a) eqn:Eh; cbn.
  - destruct (g a); [reflexivity | exact IH].
  - destruct (g a) eqn:Eg; [|exact IH].
    rewrite (H a Eg) in Eh. discriminate.
Qed.

Lemma find_filter_out {A} (g : A -> bool) rows :
  find g (filter (fun x => negb (g x)) rows) = None.
Proof.
  induction rows as [|a rows IH]; cbn; [reflexivity|].
  destruct (g a) eqn:E; cbn; [exact IH|]. now rewrite E.
Qed.

Lemma filter_nonempty_find {A} (g : A -> bool) rows :
  (0 <? List.length (filter g rows))%nat = true <-> find g rows <> None.
Proof.
  induction rows as [|a rows IH]; cbn; [split; [discriminate | congruence]|].
  destruct (g a); cbn; [split; [discriminate | reflexivity] | exact IH].
Qed.

(** X3: [remove_domain name] returns true exactly when [get_domain name]
    found a record; afterwards [get_domain name] finds none, a lookup under
    any other normalized name gives what it gave before, and the proxies and
    subscribers are as they were. *)
Theorem remove_domain_effect (foreign_keys : bool) (name : string) (st : Store) :
  (fst (Database.remove_domain foreign_keys name st) = true <->
   Database.get_domain name st <> None)
  /\ Database.get_domain name
       (snd (Database.remove_domain foreign_keys name st)) = None
  /\ (forall other,
        Database._normalize_domain other <> Database._normalize_domain name ->
        Database.get_domain other
          (snd (Database.remove_domain foreign_keys name st))
        = Database.get_domain other st)
  /\ proxies (snd (Database.remove_domain foreign_keys name st)) = proxies st
  /\ subscribers (snd (Database.remove_domain foreign_keys name st))
     = subscribers st.
Proof.
  unfold Database.remove_domain, Database.get_domain.
  cbn [fst snd domains proxies subscribers].
  split; [apply filter_nonempty_find|].
  split; [apply (find_filter_out
                   (fun r => String.eqb (d_name r)
                               (Database._normalize_domain name)))|].
  split; [|split; reflexivity].
  intros other Hne. apply find_filter_keep.
  intros r Hr. apply String.eqb_eq in Hr.
  apply negb_true_iff, String.eqb_neq. congruence.
Qed.

(** X4: [list_domains] returns every row of the table once, in
    non-decreasing order of the names. *)
Theorem list_domains_sorted (st : Store) :
  Permutation (Database.list_domains st) (domains st)
  /\ Sorted (fun a b => String.leb (d_name a) (d_name b) = true)
            (Database.list_domains st).
Proof.
  unfold Database.list_domains. split; [apply order_by_perm|].
  apply (order_by_sorted (fun a b => String.leb (d_name a) (d_name b))).
  intros a b H.
  destruct (String.leb_total (d_name a) (d_name b)) as [E|E];
    [congruence | exact E].
Qed.

Lemma map_id_ext {A} (f : A -> A) l :
  (forall x, In x l -> f x = x) -> map f l = l.
Proof.
  induction l as [|a l IH]; cbn; intros H; [reflexivity|].
  rewrite H by now left. f_equal. apply IH. intros x Hx. apply H. now right.
Qed.

(** X5: [update_domain_status] with an id that no row has (the domain was
    removed meanwhile) leaves the store as it was. *)
Theorem update_missing_domain (now : timestamp) (domain_id : Z)
    (status : string) (error : option string) (st : Store) :
  (forall r, In r (domains st) -> d_id r <> domain_id) ->
  Database.update_domain_status now domain_id status error st = st.
Proof.
  intros H. unfold Database.update_domain_status, set_domains.
  rewrite map_id_ext.
  - now destruct st.
  - intros r Hr. destruct (Z.eqb_spec (d_id r) domain_id) as [E|E];
      [now apply H in Hr | reflexivity].
Qed.

Lemma update_missing_domain_witness :
  Database.update_domain_status 20 7 "up" None Scenario.store_down
  = Scenario.store_down.
Proof.
  apply (update_missing_domain 20 7 "up" None Scenario.store_down).
  intros r [<-|[]]. discriminate.
Defined.

End DomainFacts.

(** ** The proxy pool, further *)

Section PoolFacts.

Local Open Scope list_scope.

Lemma add_proxy_keys now host port u pw c st :
  Pool.keys_ok st ->
  Pool.keys_ok (snd (Database.add_proxy now host port u pw c st)).
Proof.
  intros (Hs & Hid). unfold Pool.keys_ok, Database.add_proxy.
  cbn [snd proxies proxies_seq].
  rewrite !map_app, !map_map. cbn [map p_id set_active].
  split.
  - apply sorted_snoc; [exact Hs|].
    rewrite Forall_forall in *. intros y Hy. specialize (Hid y Hy). lia.
  - apply Forall_app. split; [|repeat constructor; lia].
    rewrite Forall_forall in *. intros y Hy. specialize (Hid y Hy). lia.
Qed.

Lemma remove_proxy_ids proxy_id st :
  map p_id (proxies (snd (Database.remove_proxy proxy_id st)))
  = map p_id (proxies st)
  \/ map p_id (proxies (snd (Database.remove_proxy proxy_id st)))
     = map p_id (filter (fun r => negb (p_id r =? proxy_id)) (proxies st)).
Proof.
  destruct (remove_proxy_rows proxy_id st) as [-> | (remaining & -> & ->)];
    [now left | right].
  rewrite map_map. apply map_ext. intros r.
  destruct (option_map _ _); [destruct (_ =? _)|]; reflexivity.
Qed.

Lemma remove_proxy_keys proxy_id st :
  Pool.keys_ok st -> Pool.keys_ok (snd (Database.remove_proxy proxy_id st)).
Proof.
  intros (Hs & Hid). unfold Pool.keys_ok. rewrite remove_proxy_seq.
  destruct (remove_proxy_ids proxy_id st) as [-> | ->]; [now split|].
  split; [now apply sorted_map_filter | now apply forall_map_filter].
Qed.

Lemma pool_run_keys ops :
  forall st, Pool.keys_ok st -> Pool.keys_ok (ProxyPool.run ops st).
Proof.
  unfold ProxyPool.run.
  induction ops as [|o ops IH]; intros st Hok; [exact Hok|].
  cbn [fold_left]. apply IH. destruct o; cbn [ProxyPool.apply_op].
  - now apply add_proxy_keys.
  - now apply remove_proxy_keys.
Qed.

(** X6: whatever sequence of [add_proxy] and [remove_proxy] calls runs on
    an empty pool, and whatever the clock reads, no two proxies have the same
    id, and the id the next [add_proxy] returns is not in the pool. *)
Theorem proxy_ids_unique (ops : list ProxyPool.proxy_op) (st : Store) :
  proxies st = [] ->
  NoDup (map p_id (proxies (ProxyPool.run ops st)))
  /\ forall now host port username password country,
       ~ In (fst (Database.add_proxy now host port username password country
                    (ProxyPool.run ops st)))
            (map p_id (proxies (ProxyPool.run ops st))).
Proof.
  intros Hempty.
  destruct (pool_run_keys ops st) as (Hs & Hid).
  { unfold Pool.keys_ok. rewrite Hempty. split; constructor. }
  split; [now apply sorted_lt_nodup|].
  intros now host port u pw c Hin. cbn in Hin.
  rewrite Forall_forall in Hid. specialize (Hid _ Hin). lia.
Qed.

Lemma proxy_ids_unique_witness :
  NoDup (map p_id (proxies (ProxyPool.run Scenario.proxy_ops empty_store)))
  /\ forall now host port username password country,
       ~ In (fst (Database.add_proxy now host port username password country
                    (ProxyPool.run Scenario.proxy_ops empty_store)))
            (map p_id (proxies (ProxyPool.run Scenario.proxy_ops empty_store))).
Proof.
  apply (proxy_ids_unique Scenario.proxy_ops empty_store). reflexivity.
Defined.

Lemma filter_active_deactivated rows :
  filter p_is_active (map (set_active false) rows) = [].
Proof. induction rows as [|r rows IH]; cbn; auto. Qed.

(** X7: after [add_proxy], [get_active_proxy] returns the proxy just added,
    with the id [add_proxy] returned; it is the only active one, and the pool
    has one row more. *)
Theorem add_proxy_then_active (now : timestamp) (host : string) (port : Z)
    (username password country : option string) (st : Store) :
  Database.get_active_proxy
    (snd (Database.add_proxy now host port username password country st))
  = Some (mkProxy
            (fst (Database.add_proxy now host port username password country st))
            host port username password country true now)
  /\ ProxyPool.active_count
       (snd (Database.add_proxy now host port username password country st))
     = 1%nat
  /\ List.length
       (proxies
          (snd (Database.add_proxy now host port username password country st)))
     = S (List.length (proxies st)).
Proof.
  unfold Database.get_active_proxy, ProxyPool.active_count, Database.add_proxy.
  cbn [fst snd proxies].
  rewrite filter_app, filter_active_deactivated. cbn.
  repeat split. rewrite length_app, length_map. cbn. lia.
Qed.

Lemma filter_shorter {A} (f : A -> bool) l :
  (List.length (filter f l) < List.length l)%nat <->
  exists x, In x l /\ f x = false.
Proof.
  induction l as [|a l IH]; cbn [filter List.length].
  - split; [lia | intros (x & [] & _)].
  - pose proof (filter_length_le f l) as Hl.
    destruct (f a) eqn:E; cbn [List.length].
    + rewrite <- Nat.succ_lt_mono, IH. split.
      * intros (x & Hx & Hf). exists x. split; [now right | exact Hf].
      * intros (x & [<-|Hx] & Hf); [congruence | eauto].
    + split; [intros _; exists a; split; [now left | exact E] | lia].
Qed.

Lemma rowcount_positive proxy_id rows :
  (0 <? List.length rows
        - List.length (filter (fun r => negb (p_id r =? proxy_id)%Z) rows))%nat
  = true <-> In proxy_id (map p_id rows).
Proof.
  pose proof (filter_length_le (fun r => negb (p_id r =? proxy_id)) rows).
  rewrite Nat.ltb_lt, in_map_iff.
  transitivity (List.length
                  (filter (fun r => negb (p_id r =? proxy_id)%Z) rows)
                < List.length rows)%nat; [lia|].
  rewrite filter_shorter. split; intros (x & H1 & H2); exists x.
  - split; [|exact H1]. now apply negb_false_iff, Z.eqb_eq in H2.
  - split; [exact H2|]. now apply negb_false_iff, Z.eqb_eq.
Qed.

Lemma activate_keeps_ids latest rows :
  map p_id
      (map (fun r =>
              match latest with
              | Some i => if p_id r =? i then set_active true r else r
              | None => r
              end) rows)
  = map p_id rows.
Proof.
  rewrite map_map. apply map_ext. intros r.
  destruct latest; [destruct (_ =? _)|]; reflexivity.
Qed.

(** X8: [remove_proxy id] returns true exactly when the pool has a proxy
    with that id; when it returns false the store is as it was; afterwards no
    proxy has the id, and the other ids are the same as before. *)
Theorem remove_proxy_result (proxy_id : Z) (st : Store) :
  (fst (Database.remove_proxy proxy_id st) = true <->
   In proxy_id (map p_id (proxies st)))
  /\ (fst (Database.remove_proxy proxy_id st) = false ->
      snd (Database.remove_proxy proxy_id st) = st)
  /\ ~ In proxy_id
         (map p_id (proxies (snd (Database.remove_proxy proxy_id st))))
  /\ (forall i, i <> proxy_id ->
        (In i (map p_id (proxies (snd (Database.remove_proxy proxy_id st))))
         <-> In i (map p_id (proxies st)))).
Proof.
  pose proof (rowcount_positive proxy_id (proxies st)) as Hrc.
  unfold Database.remove_proxy.
  destruct (0 <? _)%nat; cbn [fst snd set_proxies proxies].
  - rewrite activate_keeps_ids.
    split; [tauto|]. split; [discriminate|]. split.
    + intros Hin. apply in_map_iff in Hin. destruct Hin as (x & Hid & Hx).
      apply filter_In in Hx. destruct Hx as [_ Hf].
      apply negb_true_iff, Z.eqb_neq in Hf. congruence.
    + intros i Hi. rewrite !in_map_iff. split.
      * intros (x & Hid & Hx). apply filter_In in Hx. exists x. tauto.
      * intros (x & Hid & Hx). exists x. split; [exact Hid|].
        apply filter_In. split; [exact Hx|].
        apply negb_true_iff, Z.eqb_neq. congruence.
  - split; [exact Hrc|]. split; [reflexivity|]. split; [|tauto].
    intros Hin. apply Hrc in Hin. discriminate.
Qed.

End PoolFacts.

Section SelectionFacts.

Local Open Scope list_scope.

Lemma filter_nil_forall {A} (f : A -> bool) l :
  filter f l = [] -> forall x, In x l -> f x = false.
Proof.
  induction l as [|a l IH]; cbn; [intros _ x []|].
  destruct (f a) eqn:E; [discriminate|].
  intros H x [<-|Hx]; auto.
Qed.

Lemma forall_filter_nil {A} (f : A -> bool) l :
  (forall x, In x l -> f x = false) -> filter f l = [].
Proof.
  induction l as [|a l IH]; cbn; [reflexivity|]. intros H.
  rewrite (H a) by now left. apply IH. intros x Hx. apply H. now right.
Qed.

(** X9: a proxy that [get_proxy_for_country] returns is in the pool and is
    tagged with the country, compared without regard to letter case; no tagged
    proxy is active while it is not, and none of its own activity is newer.
    It returns nothing exactly when no proxy is tagged.  The letter case of
    the argument does not matter. *)
Theorem proxy_for_country (country : string) (st : Store) :
  match Database.get_proxy_for_country country st with
  | Some r =>
      In r (proxies st) /\ Pool.tagged country r = true
      /\ forall r', In r' (proxies st) -> Pool.tagged country r' = true ->
           (p_is_active r' = true -> p_is_active r = true)
           /\ (p_is_active r' = p_is_active r ->
               p_created_at r' <= p_created_at r)
  | None => forall r, In r (proxies st) -> Pool.tagged country r = false
  end
  /\ Database.get_proxy_for_country (PyStr.lower country) st
     = Database.get_proxy_for_country country st.
Proof.
  split.
  - unfold Database.get_proxy_for_country.
    change (fun r : ProxyRow =>
              match p_country r with
              | Some c => String.eqb (PyStr.lower c) (PyStr.lower country)
              | None => false
              end) with (Pool.tagged country).
    destruct (Sql.first_by _ _) as [r|] eqn:E.
    + pose proof (first_by_in _ _ _ E) as Hin. apply filter_In in Hin.
      destruct Hin as [Hin Ht]. split; [exact Hin|]. split; [exact Ht|].
      intros r' Hr' Ht'.
      assert (Hb : (p_is_active r' && negb (p_is_active r)
                    || Bool.eqb (p_is_active r') (p_is_active r)
                       && Database.newer r' r) = false).
      { apply (first_by_first _ _ _) with (x := r') in E; [exact E| | | |].
        - intros x. unfold Database.newer.
          destruct (p_is_active x); cbn; apply Z.ltb_irrefl.
        - intros x y. unfold Database.newer.
          destruct (p_is_active x), (p_is_active y); cbn; try discriminate;
            try reflexivity; rewrite !Z.ltb_lt, Z.ltb_ge; lia.
        - intros x y z. unfold Database.newer.
          destruct (p_is_active x), (p_is_active y), (p_is_active z); cbn;
            try discriminate; try reflexivity; rewrite !Z.ltb_ge; lia.
        - apply filter_In. now split. }
      unfold Database.newer in Hb.
      destruct (p_is_active r'), (p_is_active r); cbn in Hb;
        try discriminate; split; try reflexivity; try discriminate;
        intros _; apply Z.ltb_ge in Hb; lia.
    + apply first_by_none in E. now apply filter_nil_forall.
  - unfold Database.get_proxy_for_country. now rewrite lower_idem.
Qed.

Lemma proxy_url_selected st :
  Probe.proxy_url st
  = option_map Pool.url_of
      match Database.get_proxy_for_country "turkey" st with
      | None => Database.get_active_proxy st
      | Some p => Some p
      end.
Proof.
  unfold Probe.proxy_url.
  destruct (match Database.get_proxy_for_country "turkey" st with
            | None => Database.get_active_proxy st
            | Some p => Some p
            end); reflexivity.
Qed.

Lemma country_none_untagged country st :
  Database.get_proxy_for_country country st = None ->
  forall r, In r (proxies st) -> Pool.tagged country r = false.
Proof.
  unfold Database.get_proxy_for_country. intros E.
  apply first_by_none in E. now apply filter_nil_forall.
Qed.

Lemma country_some_tagged country st r :
  Database.get_proxy_for_country country st = Some r ->
  In r (proxies st) /\ Pool.tagged country r = true.
Proof.
  unfold Database.get_proxy_for_country. intros E.
  apply first_by_in, filter_In in E. exact E.
Qed.

(** X10: [_get_proxy] changes nothing and returns the URL of a proxy of the
    pool: one tagged [turkey], or, when none is tagged, an active one.  It
    returns [None] exactly when no proxy is tagged and none is active.  The
    URL carries credentials only when username and password are both
    non-empty. *)
Theorem get_proxy_selection (env : Env) (w : World) :
  exists selected,
    DomainChecker._get_proxy env w
    = (Returns (option_map Pool.url_of selected), w)
    /\ match selected with
       | None =>
           forall r, In r (proxies (db w)) ->
             Pool.tagged "turkey" r = false /\ p_is_active r = false
       | Some r =>
           In r (proxies (db w))
           /\ (Pool.tagged "turkey" r = true
               \/ (p_is_active r = true
                   /\ forall r', In r' (proxies (db w)) ->
                        Pool.tagged "turkey" r' = false))
           /\ (PyStr.truthy (p_username r) && PyStr.truthy (p_password r)
               = false ->
               Pool.url_of r
               = ("http://" ++ p_host r ++ ":"
                    ++ PyStr.str_of_int (p_port r))%string)
       end.
Proof.
  rewrite get_proxy_run, proxy_url_selected.
  eexists. split; [reflexivity|].
  destruct (Database.get_proxy_for_country "turkey" (db w)) as [p|] eqn:Ec.
  - apply country_some_tagged in Ec. destruct Ec as [Hin Ht].
    split; [exact Hin|]. split; [now left|].
    unfold Pool.url_of. now intros ->.
  - pose proof (country_none_untagged _ _ Ec) as Hun.
    unfold Database.get_active_proxy.
    destruct (Sql.first_by _ _) as [p|] eqn:Ea.
    + apply first_by_in, filter_In in Ea. destruct Ea as [Hin Ha].
      split; [exact Hin|]. split; [right; split; auto|].
      unfold Pool.url_of. now intros ->.
    + apply first_by_none in Ea. intros r Hr. split; [now apply Hun|].
      now apply (filter_nil_forall _ _ Ea).
Qed.

(** X11: in a pool built from an empty one by [add_proxy] and [remove_proxy]
    calls with an advancing clock, [_get_proxy] returns [None] (the probe
    connects directly) exactly when the pool is empty; and when no proxy is
    tagged [turkey], it returns the URL of the last row, the newest proxy. *)
Theorem direct_iff_pool_empty (ops : list ProxyPool.proxy_op) (st : Store)
    (env : Env) (w : World) :
  proxies st = [] ->
  ProxyPool.clock_advances ops ->
  db w = ProxyPool.run ops st ->
  (fst (DomainChecker._get_proxy env w) = Returns None <->
   proxies (db w) = [])
  /\ (forall init last,
        proxies (db w) = init ++ [last] ->
        (forall r, In r (proxies (db w)) -> Pool.tagged "turkey" r = false) ->
        fst (DomainChecker._get_proxy env w) = Returns (Some (Pool.url_of last))).
Proof.
  intros Hempty Hclock Hdb.
  assert (Hok : ProxyPool.pool_ok (db w)).
  { rewrite Hdb. apply run_ok; [|exact Hclock|].
    - unfold ProxyPool.pool_ok. rewrite Hempty. repeat split; constructor.
    - intros t _. rewrite Hempty. constructor. }
  destruct Hok as (_ & _ & Hlast).
  rewrite get_proxy_run, proxy_url_selected. cbn [fst].
  assert (Hactive : forall init last,
             proxies (db w) = init ++ [last] ->
             Database.get_active_proxy (db w) = Some last).
  { intros init last E. unfold Database.get_active_proxy.
    inversion Hlast as [Hnil | init0 last0 Hi Hl Hrows].
    - rewrite E in Hnil. now destruct init.
    - rewrite E in Hrows. apply app_inj_tail in Hrows.
      destruct Hrows as [-> ->]. rewrite ?E, filter_app.
      rewrite (forall_filter_nil p_is_active init).
      + cbn. now rewrite Hl.
      + now apply Forall_forall. }
  split.
  - split.
    + intros H.
      destruct (proxies (db w)) as [|r rows] eqn:E using rev_ind;
        [reflexivity|]. exfalso.
      specialize (Hactive _ _ eq_refl).
      destruct (Database.get_proxy_for_country "turkey" (db w));
        [discriminate|]. rewrite Hactive in H. discriminate.
    + intros E. unfold Database.get_proxy_for_country, Database.get_active_proxy.
      now rewrite E.
  - intros init last E Hun.
    assert (Hc : Database.get_proxy_for_country "turkey" (db w) = None).
    { unfold Database.get_proxy_for_country.
      change (fun r : ProxyRow =>
                match p_country r with
                | Some c => String.eqb (PyStr.lower c) (PyStr.lower "turkey")
                | None => false
                end) with (Pool.tagged "turkey").
      now rewrite (forall_filter_nil _ _ Hun). }
    now rewrite Hc, (Hactive _ _ E).
Qed.

Lemma direct_iff_pool_empty_witness :
  fst (DomainChecker._get_proxy (Scenario.answering (Response 200))
         Cases.with_pool) = Returns None
  <-> proxies (db Cases.with_pool) = [].
Proof.
  apply (direct_iff_pool_empty Scenario.proxy_ops empty_store
           (Scenario.answering (Response 200)) Cases.with_pool).
  - reflexivity.
  - unfold ProxyPool.clock_advances. cbn. repeat (constructor; try lia).
  - reflexivity.
Defined.

Example pool_probe_proxy :
  fst (DomainChecker._get_proxy (Scenario.answering (Response 200))
         Cases.with_pool)
  = Returns (Some "http://u:p@10.0.0.2:8080").
Proof. reflexivity. Qed.

(** X12: [list_proxies] returns every proxy of the pool once, newest
    first. *)
Theorem list_proxies_newest_first (st : Store) :
  Permutation (Database.list_proxies st) (proxies st)
  /\ Sorted (fun a b => p_created_at b <= p_created_at a)
            (Database.list_proxies st).
Proof.
  unfold Database.list_proxies. split; [apply order_by_perm|].
  pose proof (order_by_sorted
                (fun a b => p_created_at b <=? p_created_at a) (proxies st))
    as H.
  assert (Hs : Sorted (fun a b => (p_created_at b <=? p_created_at a) = true)
                 (Sql.order_by (fun a b => p_created_at b <=? p_created_at a)
                    (proxies st))).
  { apply H. intros a b E. apply Z.leb_gt in E. apply Z.leb_le. lia. }
  clear H. induction Hs as [|a l Hs IH Ha]; constructor; [exact IH|].
  destruct Ha; constructor. now apply Z.leb_le.
Qed.

End SelectionFacts.

(** ** Subscribers *)

Section SubscriberFacts.

Local Open Scope list_scope.

Lemma insert_subscriber_sorted x rows :
  StronglySorted Z.lt (map s_chat_id rows) ->
  ~ In (s_chat_id x) (map s_chat_id rows) ->
  StronglySorted Z.lt
    (map s_chat_id
       (Sql.insert_by (fun a b => s_chat_id a <=? s_chat_id b) x rows)).
Proof.
  induction rows as [|r rows IH]; cbn; [repeat constructor|].
  intros Hs Hx. apply StronglySorted_inv in Hs. destruct Hs as [Hs Hr].
  destruct (Z.leb_spec (s_chat_id r) (s_chat_id x)) as [E|E]; cbn.
  - constructor; [apply IH; tauto|].
    apply Forall_forall. intros y Hy.
    apply in_map_iff in Hy. destruct Hy as (z & <- & Hz).
    apply (Permutation_in _ (insert_by_perm _ x rows)) in Hz.
    destruct Hz as [<-|Hz]; [lia|].
    rewrite Forall_forall in Hr. apply Hr, in_map, Hz.
  - constructor; [now constructor|].
    constructor; [exact E|].
    rewrite Forall_forall in *. intros y Hy. specialize (Hr y Hy). lia.
Qed.

Lemma existsb_subscriber chat_id rows :
  existsb (fun s => s_chat_id s =? chat_id) rows = true <->
  In chat_id (map s_chat_id rows).
Proof.
  rewrite existsb_exists, in_map_iff.
  split; intros (x & H1 & H2); exists x.
  - split; [now apply Z.eqb_eq in H2 | exact H1].
  - split; [exact H2 | now apply Z.eqb_eq].
Qed.

(** X13: [add_subscriber] keeps the subscribers a set in the order of their
    chat ids: afterwards the chat id is listed, the others are those listed
    before, none is listed twice; adding a subscriber again, at any later
    time, changes nothing. *)
Theorem add_subscriber_set (now : timestamp) (chat_id : Z) (st : Store) :
  Subscribers.table_ok st ->
  Subscribers.table_ok (Database.add_subscriber now chat_id st)
  /\ NoDup (Database.list_subscribers (Database.add_subscriber now chat_id st))
  /\ (forall c,
        In c (Database.list_subscribers (Database.add_subscriber now chat_id st))
        <-> c = chat_id \/ In c (Database.list_subscribers st))
  /\ (forall later,
        Database.add_subscriber later chat_id
          (Database.add_subscriber now chat_id st)
        = Database.add_subscriber now chat_id st)
  /\ (In chat_id (Database.list_subscribers st) ->
      Database.add_subscriber now chat_id st = st).
Proof.
  intros Hok.
  assert (Hmem : forall c,
             In c (Database.list_subscribers
                     (Database.add_subscriber now chat_id st))
             <-> c = chat_id \/ In c (Database.list_subscribers st)).
  { intros c. unfold Database.add_subscriber, Database.list_subscribers.
    destruct (existsb _ _) eqn:E.
    - apply existsb_subscriber in E. split; [auto|].
      intros [->|H]; assumption.
    - cbn [subscribers]. rewrite !in_map_iff. split.
      + intros (x & <- & Hx).
        apply (Permutation_in _ (insert_by_perm _ _ _)) in Hx.
        destruct Hx as [<-|Hx]; [now left | right; eauto].
      + intros [->|(x & <- & Hx)].
        * eexists. split; [|apply (Permutation_in _
                                     (Permutation_sym (insert_by_perm _ _ _)));
                             now left]. reflexivity.
        * exists x. split; [reflexivity|].
          apply (Permutation_in _ (Permutation_sym (insert_by_perm _ _ _))).
          now right. }
  assert (Hok' : Subscribers.table_ok (Database.add_subscriber now chat_id st)).
  { unfold Subscribers.table_ok, Database.add_subscriber.
    destruct (existsb _ _) eqn:E; [exact Hok|]. cbn [subscribers].
    apply insert_subscriber_sorted; [exact Hok|]. cbn.
    intros Hin. apply existsb_subscriber in Hin. congruence. }
  split; [exact Hok'|].
  split; [now apply sorted_lt_nodup|].
  split; [exact Hmem|].
  split.
  - intros later. unfold Database.add_subscriber at 1.
    assert (H : existsb (fun s => s_chat_id s =? chat_id)
                  (subscribers (Database.add_subscriber now chat_id st))
                = true).
    { apply existsb_subscriber, Hmem. now left. }
    now rewrite H.
  - intros Hin. unfold Database.add_subscriber.
    apply existsb_subscriber in Hin. now rewrite Hin.
Qed.

Lemma add_subscriber_set_witness :
  Database.list_subscribers
    (Database.add_subscriber 7 17 Scenario.store_unchecked) = [17; 42]
  /\ NoDup (Database.list_subscribers
              (Database.add_subscriber 7 17 Scenario.store_unchecked))
  /\ Database.add_subscriber 9 17
       (Database.add_subscriber 7 17 Scenario.store_unchecked)
     = Database.add_subscriber 7 17 Scenario.store_unchecked.
Proof.
  destruct (add_subscriber_set 7 17 Scenario.store_unchecked)
    as (_ & Hn & _ & Hidem & _).
  - unfold Subscribers.table_ok. cbn. repeat constructor.
  - split; [reflexivity|]. split; [exact Hn | apply Hidem].
Defined.

End SubscriberFacts.

(** ** The check operations, further *)

Section CheckFacts.

Local Open Scope list_scope.

(** However [_perform_check] ends, the world is the one after its request. *)
Lemma perform_check_world domain env w :
  snd (DomainChecker._perform_check domain env w) = Probe.sent domain env w.
Proof.
  rewrite perform_check_run.
  destruct (Probe.answer domain env w) as [status|e]; [reflexivity|].
  pose proof (handlers_spec e) as H.
  destruct (Probe.handled e).
  - now destruct H as (kind & -> & _).
  - now rewrite H.
Qed.

(** The trace after [_check_domain_record] without notification. *)
Lemma silent_record_notifications d env w :
  notifications
    (trace (snd (DomainChecker._check_domain_record d false env w)))
  = notifications (trace w).
Proof.
  destruct (DomainChecker._perform_check (d_name d) env w)
    as [[[is_up error]|e|] w1] eqn:Hp.
  - rewrite (check_record_run _ false _ _ _ _ _ Hp). cbn [snd].
    rewrite (check_record_trace _ false _ _ _ _ _ Hp).
    rewrite !notifications_app. cbn. now rewrite app_nil_r.
  - rewrite (check_record_raises _ _ _ _ _ _ Hp). cbn [snd].
    pose proof (perform_check_world (d_name d) env w) as Hw.
    rewrite Hp in Hw. cbn in Hw. subst w1.
    cbn [Probe.sent trace]. rewrite notifications_app. cbn.
    now rewrite app_nil_r.
  - exfalso. pose proof (quiet_perform_check (d_name d) env w) as [_ H].
    rewrite Hp in H. now apply H.
Qed.

(** X14: [check_domain_by_name] never notifies: whatever the name, the
    store, the answer of the network and the state of the lock, the notifying
    events of the trace are the same after it as before. *)
Theorem manual_check_never_notifies (name : string) (env : Env) (w : World) :
  notifications
    (trace (snd (DomainChecker.check_domain_by_name name env w)))
  = notifications (trace w).
Proof.
  destruct (locked w) eqn:Hl.
  - unfold DomainChecker.check_domain_by_name, with_lock. now rewrite Hl.
  - rewrite (check_domain_by_name_run env name w Hl).
    destruct (Database.get_domain name (db w)) as [record|]; [|reflexivity].
    pose proof (silent_record_notifications record env (set_locked true w))
      as Hs.
    destruct (DomainChecker._check_domain_record record false env
                (set_locked true w)) as [[o|e|] w1]; exact Hs.
Qed.

(** X15: started with the lock free, [check_domain_by_name] and
    [check_all_domains] never wait and leave the lock free, however they end:
    with an outcome, with the not-found error, or with an exception that
    passes through the probe. *)
Theorem lock_released_after_check (name : string) (env : Env) (w : World) :
  locked w = false ->
  locked (snd (DomainChecker.check_domain_by_name name env w)) = false
  /\ fst (DomainChecker.check_domain_by_name name env w) <> Waits
  /\ locked (snd (DomainChecker.check_all_domains env w)) = false
  /\ fst (DomainChecker.check_all_domains env w) <> Waits.
Proof.
  intros Hl.
  rewrite (check_domain_by_name_run env name w Hl),
    (check_all_domains_run env w Hl).
  pose proof (for_each_never_waits env (Database.list_domains (db w))
                (set_locked true w)) as Hall.
  destruct (for_each _ _ env (set_locked true w)) as [[[]|e|] w2];
    cbn [fst snd] in *; try contradiction;
    (destruct (Database.get_domain name (db w)) as [record|];
     [ pose proof (check_record_never_waits env record false
                     (set_locked true w)) as Hone;
       destruct (DomainChecker._check_domain_record record false env
                   (set_locked true w)) as [[o|e'|] w1];
       cbn [fst snd] in *; try contradiction;
       repeat split; try reflexivity; discriminate
     | cbn [fst snd]; repeat split; try assumption; try reflexivity;
       discriminate ]).
Qed.

Lemma lock_released_after_check_witness :
  locked (snd (DomainChecker.check_domain_by_name "example.com" Cases.cancelled
                 (Scenario.fresh Scenario.store_down))) = false
  /\ fst (DomainChecker.check_domain_by_name "example.com" Cases.cancelled
            (Scenario.fresh Scenario.store_down)) <> Waits
  /\ locked (snd (DomainChecker.check_all_domains Cases.cancelled
                    (Scenario.fresh Scenario.store_down))) = false
  /\ fst (DomainChecker.check_all_domains Cases.cancelled
            (Scenario.fresh Scenario.store_down)) <> Waits.
Proof.
  apply (lock_released_after_check "example.com" Cases.cancelled
           (Scenario.fresh Scenario.store_down)).
  reflexivity.
Defined.

End CheckFacts.

Section BatchFacts.

Local Open Scope list_scope.

(** One record of a batch whose probe is answered: one request, one log
    entry, and the rows with the record's id set to [up] or [down]. *)
Lemma batch_record env w d :
  Probe.caught (Probe.answer (d_name d) env w) = true ->
  exists o w1,
    DomainChecker._check_domain_record d true env w = (Returns o, w1)
    /\ locked w1 = locked w
    /\ requests w1 = S (requests w)
    /\ map l_domain_id (check_logs (db w1))
       = map l_domain_id (check_logs (db w)) ++ [d_id d]
    /\ domains (db w1)
       = map (fun r =>
                if d_id r =? d_id d
                then mkDomain (d_id r) (d_name r)
                       (Some (Check.status_of (fst o))) (snd o)
                       (Some (clock env (clock_reads w)))
                else r) (domains (db w))
    /\ map d_name (domains (db w1)) = map d_name (domains (db w)).
Proof.
  intros Hc. destruct (perform_check_caught _ _ _ Hc) as ([is_up error] & Hp).
  exists (is_up, error). eexists.
  split; [apply (check_record_run _ true _ _ _ _ _ Hp)|].
  cbn. rewrite map_app. cbn. repeat split.
  apply update_keeps_ids.
Qed.

Lemma batch_loop env :
  Batch.all_caught env ->
  forall ds w,
    exists w',
      for_each ds
        (fun domain => DomainChecker._check_domain_record domain true ;;; ret tt)
        env w = (Returns tt, w')
      /\ locked w' = locked w
      /\ requests w' = (requests w + List.length ds)%nat
      /\ map l_domain_id (check_logs (db w'))
         = map l_domain_id (check_logs (db w)) ++ map d_id ds
      /\ map d_name (domains (db w')) = map d_name (domains (db w))
      /\ forall r', In r' (domains (db w')) ->
           exists r, In r (domains (db w)) /\ d_id r = d_id r'
             /\ (In (d_id r') (map d_id ds) ->
                 d_last_status r' = Some "up"
                 \/ d_last_status r' = Some "down")
             /\ (d_last_status r = Some "up" \/ d_last_status r = Some "down" ->
                 d_last_status r' = Some "up"
                 \/ d_last_status r' = Some "down").
Proof.
  intros Hall. induction ds as [|d ds IH]; intros w.
  - exists w. cbn. rewrite app_nil_r. repeat split; try lia.
    intros r' Hr'. exists r'. tauto.
  - rewrite for_each_cons.
    destruct (batch_record env w d)
      as (o & w1 & -> & Hl & Hq & Hlog & Hdom & Hnames); [apply Hall|].
    destruct (IH w1) as (w' & -> & Hl' & Hq' & Hlog' & Hnames' & Hdom').
    exists w'. split; [reflexivity|].
    split; [congruence|].
    split; [cbn; lia|].
    split; [rewrite Hlog', Hlog, <- app_assoc; reflexivity|].
    split; [congruence|].
    intros r'' Hr''.
    destruct (Hdom' r'' Hr'') as (r' & Hr' & Hid' & Hin' & Hkeep').
    rewrite Hdom in Hr'. apply in_map_iff in Hr'.
    destruct Hr' as (r & Hupd & Hr).
    exists r. split; [exact Hr|].
    assert (Hstep : d_id r = d_id r'
                    /\ (d_id r' = d_id d ->
                        d_last_status r' = Some "up"
                        \/ d_last_status r' = Some "down")
                    /\ (d_last_status r = Some "up"
                        \/ d_last_status r = Some "down" ->
                        d_last_status r' = Some "up"
                        \/ d_last_status r' = Some "down")).
    { destruct (Z.eqb_spec (d_id r) (d_id d)) as [E|E]; subst r'; cbn.
      - repeat split; intros _; destruct (fst o); cbn; auto.
      - repeat split; [congruence | tauto]. }
    destruct Hstep as (Hid & Hnow & Hkeep).
    split; [congruence|]. split.
    + cbn [map]. intros [Hd|Hin].
      * apply Hkeep', Hnow. congruence.
      * now apply Hin'.
    + intros H. now apply Hkeep', Hkeep.
Qed.

(** X16: when every answer of the network is one the probe turns into an
    outcome, [check_all_domains], started with the lock free, returns and
    frees the lock; it makes one request and appends one log entry per
    domain, in the order of the names; the names in the table are as before,
    and every domain is left with the status [up] or [down]. *)
Theorem batch_checks_every_domain (env : Env) (w : World) :
  locked w = false ->
  Batch.all_caught env ->
  exists w',
    DomainChecker.check_all_domains env w = (Returns tt, w')
    /\ locked w' = false
    /\ requests w' = (requests w + List.length (domains (db w)))%nat
    /\ map l_domain_id (check_logs (db w'))
       = map l_domain_id (check_logs (db w))
           ++ map d_id (Database.list_domains (db w))
    /\ map d_name (domains (db w')) = map d_name (domains (db w))
    /\ forall r, In r (domains (db w')) ->
         d_last_status r = Some "up" \/ d_last_status r = Some "down".
Proof.
  intros Hl Hall. rewrite (check_all_domains_run env w Hl).
  destruct (batch_loop env Hall (Database.list_domains (db w))
              (set_locked true w))
    as (w' & -> & Hl' & Hq & Hlog & Hnames & Hdom).
  assert (Hperm : Permutation (Database.list_domains (db w)) (domains (db w)))
    by apply order_by_perm.
  exists (set_locked false w'). split; [reflexivity|].
  split; [reflexivity|].
  split; [cbn; rewrite Hq; cbn; now rewrite (Permutation_length Hperm)|].
  split; [exact Hlog|].
  cbn [db set_locked] in *.
  split; [exact Hnames|].
  intros r' Hr'. destruct (Hdom r' Hr') as (r & Hr & Hid & Hin & _).
  apply Hin. rewrite <- Hid.
  apply in_map. apply (Permutation_in _ (Permutation_sym Hperm)). exact Hr.
Qed.

Lemma batch_checks_every_domain_witness :
  exists w',
    DomainChecker.check_all_domains (Scenario.answering (Response 200))
      (Scenario.fresh Scenario.store_down) = (Returns tt, w')
    /\ locked w' = false
    /\ requests w' = 1%nat
    /\ map l_domain_id (check_logs (db w')) = [1; 1]
    /\ forall r, In r (domains (db w')) ->
         d_last_status r = Some "up" \/ d_last_status r = Some "down".
Proof.
  destruct (batch_checks_every_domain (Scenario.answering (Response 200))
              (Scenario.fresh Scenario.store_down))
    as (w' & Hrun & Hl & Hq & Hlog & _ & Hst).
  - reflexivity.
  - intros n url proxy user_agent. reflexivity.
  - exists w'. repeat split; assumption.
Defined.

(** X17: when the probe of the first domain of a batch fails with an
    exception no clause catches, [check_all_domains] ends with that
    exception: the lock is freed, the store is as it was, and the trace has
    grown by that one request only; the other domains are not probed. *)
Theorem batch_stops_at_uncaught (env : Env) (w : World) (d : DomainRow)
    (rest : list DomainRow) (e : exn) :
  locked w = false ->
  Database.list_domains (db w) = d :: rest ->
  Probe.answer (d_name d) env w = Failure e ->
  Probe.handled e = false ->
  exists w',
    DomainChecker.check_all_domains env w = (Raises e, w')
    /\ db w' = db w
    /\ locked w' = false
    /\ trace w' = trace w ++ [Probe.request (d_name d) env w].
Proof.
  intros Hl Hlist Ha Hh. rewrite (check_all_domains_run env w Hl), Hlist.
  rewrite for_each_cons.
  assert (Hp : DomainChecker._perform_check (d_name d) env (set_locked true w)
               = (Raises e, Probe.sent (d_name d) env (set_locked true w)))
    by now apply perform_check_uncaught.
  rewrite (check_record_raises _ _ _ _ _ _ Hp).
  eexists. split; [reflexivity|]. repeat split.
Qed.

Lemma batch_stops_at_uncaught_witness :
  exists w',
    DomainChecker.check_all_domains Cases.cancelled
      (Scenario.fresh Scenario.store_unchecked)
    = (Raises (mkExn CancelledError ""), w')
    /\ db w' = Scenario.store_unchecked
    /\ locked w' = false.
Proof.
  destruct (batch_stops_at_uncaught Cases.cancelled
              (Scenario.fresh Scenario.store_unchecked)
              Scenario.example_com [] (mkExn CancelledError ""))
    as (w' & Hrun & Hdb & Hl & _); try reflexivity.
  exists w'. repeat split; assumption.
Defined.

End BatchFacts.

(** ** The loop never stops short *)

Section ProgressFacts.

Local Open Scope list_scope.

Lemma after_runs {A} (m : M A) next env w :
  Loop.quiet m -> Loop.after m next env w <> None.
Proof.
  intros Hq. destruct (Hq env w) as [_ Hw]. unfold Loop.after.
  destruct (m env w) as [[a|e|] w1]; cbn in Hw; congruence.
Qed.

(** A coroutine inside the block can always run its next segment. *)
Lemma inside_runs env st w :
  Loop.task_step env (Loop.Inside st) w <> None.
Proof.
  destruct st as [ |todo|name|d notify k|d notify o k|d notify o k
                  |d notify o k|r]; cbn [Loop.task_step].
  - apply after_runs. intros env' w0. split; [reflexivity | discriminate].
  - destruct todo; discriminate.
  - apply after_runs, quiet_lookup.
  - apply after_runs, quiet_perform_check.
  - apply after_runs, quiet_update.
  - apply after_runs, quiet_log.
  - apply after_runs, quiet_notify.
  - discriminate.
Qed.

(** X18: the check operations never deadlock: in every state the loop can
    reach from operations issued with the lock free, as long as one of them
    has not finished, some coroutine can run its next segment. *)
Theorem loop_never_stuck (env : Env) (ops : list Loop.op) (w : World)
    (s : Loop.System) :
  locked w = false ->
  Loop.steps env (Loop.issue ops w) s ->
  (exists i t, nth_error (Loop.tasks s) i = Some t
               /\ forall r, t <> Loop.Finished r) ->
  exists s', Loop.step env s s'.
Proof.
  intros Hl Hsteps (i & t & Hi & Hunf).
  destruct (invariant_steps env _ _ (invariant_issue ops w Hl) Hsteps)
    as (cur & _ & Hcur).
  assert (Hgo : exists j u u' w', nth_error (Loop.tasks s) j = Some u
                  /\ Loop.task_step env u (Loop.world s) = Some (u', w')).
  { destruct cur as [j|].
    - destruct Hcur as (_ & (u & Hu & Hin) & _).
      destruct u as [o|st|r]; try discriminate.
      pose proof (inside_runs env st (Loop.world s)) as Hrun.
      destruct (Loop.task_step env (Loop.Inside st) (Loop.world s))
        as [[u' w']|] eqn:E; [|contradiction].
      exists j, (Loop.Inside st), u', w'. now split.
    - destruct Hcur as [Hfree Hnone].
      specialize (Hnone i t Hi).
      destruct t as [o|st|r]; [|discriminate | now elim (Hunf r)].
      exists i, (Loop.Pending o). eexists. eexists.
      split; [exact Hi|]. rewrite task_step_pending, Hfree. reflexivity. }
  destruct Hgo as (j & u & u' & w' & Hj & Hstep).
  eexists. apply (Loop.step_task env s j u u' w' Hj Hstep).
Qed.

Lemma loop_never_stuck_witness :
  exists s', Loop.step (Scenario.answering (Response 200)) Scenario.two_checks s'.
Proof.
  apply (loop_never_stuck (Scenario.answering (Response 200))
           [Loop.CheckAll; Loop.CheckOne "example.com"]
           (Scenario.fresh Scenario.store_down) Scenario.two_checks).
  - reflexivity.
  - apply play_steps.
  - exists 0%nat. eexists. split; [vm_compute; reflexivity | discriminate].
Defined.

End ProgressFacts.

(** ** The command handlers *)

Section HandlerFacts.

Local Open Scope list_scope.

(** Every handler starts with [db_add_subscriber]. *)
Lemma after_subscription {A} chat_id (k : M A) env w :
  (Handlers.db_add_subscriber chat_id ;;; k) env w
  = k env (Handlers.subscribed chat_id env w).
Proof. reflexivity. Qed.

Lemma add_subscriber_frame now chat_id st :
  domains (Database.add_subscriber now chat_id st) = domains st
  /\ domains_seq (Database.add_subscriber now chat_id st) = domains_seq st
  /\ proxies (Database.add_subscriber now chat_id st) = proxies st
  /\ proxies_seq (Database.add_subscriber now chat_id st) = proxies_seq st
  /\ check_logs (Database.add_subscriber now chat_id st) = check_logs st.
Proof.
  unfold Database.add_subscriber.
  destruct (existsb _ _); cbn; repeat split; reflexivity.
Qed.

Lemma subscribed_member now chat_id st :
  In chat_id (Database.list_subscribers (Database.add_subscriber now chat_id st)).
Proof.
  unfold Database.add_subscriber, Database.list_subscribers.
  destruct (existsb _ _) eqn:E.
  - now apply existsb_subscriber.
  - cbn [subscribers]. apply in_map_iff.
    exists (mkSubscriber chat_id now). split; [reflexivity|].
    eapply Permutation_in; [symmetry; apply insert_by_perm|]. now left.
Qed.

(** The two outcomes of [_check_domain_record]: the probe gave an outcome,
    which is written, or it raised, and nothing is. *)
Lemma record_cases d notify env w :
  (exists is_up error,
     DomainChecker._check_domain_record d notify env w
     = (Returns (is_up, error),
        add_trace (if notify
                   then Check.notice (db w) d
                          (Check.previous_status d) is_up error
                   else [])
          (Check.written d is_up error env (Probe.sent (d_name d) env w)))
     /\ Probe.caught (Probe.answer (d_name d) env w) = true)
  \/ (exists e,
        DomainChecker._check_domain_record d notify env w
        = (Raises e, Probe.sent (d_name d) env w)
        /\ Probe.answer (d_name d) env w = Failure e
        /\ Probe.handled e = false).
Proof.
  pose proof (perform_check_run (d_name d) env w) as Hrun.
  destruct (Probe.answer (d_name d) env w) as [status|e] eqn:Ea.
  - left. destruct (status <? 400) eqn:Es; do 2 eexists;
      (split; [|reflexivity]);
      rewrite (check_record_run _ notify _ _ _ _ _ Hrun); reflexivity.
  - pose proof (handlers_spec e) as Hh.
    destruct (Probe.handled e) eqn:He.
    + left. destruct Hh as (kind & Hk & _). rewrite Hk in Hrun.
      unfold ret in Hrun. do 2 eexists.
      split; [|cbn; now rewrite He].
      rewrite (check_record_run _ notify _ _ _ _ _ Hrun). reflexivity.
    + right. exists e. rewrite Hh in Hrun.
      split; [|split; [reflexivity | exact He]].
      now apply check_record_raises.
Qed.

Lemma record_subscribers d notify env w :
  subscribers (db (snd (DomainChecker._check_domain_record d notify env w)))
  = subscribers (db w).
Proof.
  destruct (record_cases d notify env w)
    as [(is_up & error & -> & _)|(e & -> & _)]; reflexivity.
Qed.

Lemma by_name_subscribers name env w :
  subscribers (db (snd (DomainChecker.check_domain_by_name name env w)))
  = subscribers (db w).
Proof.
  unfold DomainChecker.check_domain_by_name, with_lock.
  destruct (locked w); [reflexivity|].
  unfold bind at 1. unfold query at 1. cbn [db set_locked].
  destruct (Database.get_domain name (db w)) as [record|]; [|reflexivity].
  pose proof (record_subscribers record false env (set_locked true w)) as H.
  destruct (DomainChecker._check_domain_record record false env
              (set_locked true w)) as [[o|e|] w1]; exact H.
Qed.

Lemma remove_proxy_frame proxy_id st :
  subscribers (snd (Database.remove_proxy proxy_id st)) = subscribers st
  /\ domains (snd (Database.remove_proxy proxy_id st)) = domains st.
Proof.
  unfold Database.remove_proxy. destruct (_ <? _)%nat; split; reflexivity.
Qed.

Lemma add_domain_frame name st :
  subscribers (Database.add_domain name st) = subscribers st
  /\ proxies (Database.add_domain name st) = proxies st.
Proof.
  unfold Database.add_domain. destruct (existsb _ _); split; reflexivity.
Qed.

(** X19: every command handler ([cmd_start], [add_domain], [remove_domain],
    [force_check], [add_proxy], [remove_proxy]) subscribes the chat of the
    message first: however the handler ends, with a reply, with an exception
    or waiting for the lock, and whatever its arguments, the subscribers
    afterwards are those [add_subscriber] leaves on the store before, and the
    sender is among them. *)
Theorem handlers_subscribe_sender (foreign_keys : bool) (max_str_digits : nat)
    (chat_id : Z) (c : Handlers.command) (env : Env) (w : World) :
  Database.list_subscribers
    (db (snd (Handlers.handle foreign_keys max_str_digits chat_id c env w)))
  = Database.list_subscribers
      (Database.add_subscriber (clock env (clock_reads w)) chat_id (db w))
  /\ In chat_id
       (Database.list_subscribers
          (db (snd (Handlers.handle foreign_keys max_str_digits chat_id c
                      env w)))).
Proof.
  assert (H : subscribers
                (db (snd (Handlers.handle foreign_keys max_str_digits chat_id c
                            env w)))
              = subscribers
                  (Database.add_subscriber (clock env (clock_reads w)) chat_id
                     (db w))).
  { destruct c as [|args|args|args|args|args]; cbn [Handlers.handle].
    - reflexivity.
    - unfold Handlers.add_domain. rewrite after_subscription.
      destruct (negb (PyStr.truthy args)); [reflexivity|].
      apply add_domain_frame.
    - unfold Handlers.remove_domain. rewrite after_subscription.
      destruct (negb (PyStr.truthy args)); [reflexivity|].
      unfold bind, Handlers.transact. cbn [fst snd].
      destruct (fst (Database.remove_domain _ _ _)); reflexivity.
    - unfold Handlers.force_check. rewrite after_subscription.
      destruct (negb (PyStr.truthy args)); [reflexivity|].
      set (domain := BotService._normalize_domain _).
      set (w0 := Handlers.subscribed chat_id env w).
      pose proof (by_name_subscribers domain env w0) as Hs.
      unfold bind at 1. unfold try_except. unfold bind at 1.
      destruct (DomainChecker.check_domain_by_name domain env w0)
        as [[[is_up error]|e|] w1]; cbn [snd] in Hs.
      + cbn. destruct is_up; exact Hs.
      + destruct (PyExc.isinstance e ValueError); exact Hs.
      + exact Hs.
    - unfold Handlers.add_proxy. rewrite after_subscription.
      destruct (negb (PyStr.truthy args)); [reflexivity|].
      destruct (_ <? _)%nat; [reflexivity|].
      destruct (PyParse.int _ _) as [port|]; [|reflexivity].
      unfold bind at 1. unfold Handlers.db_add_proxy. unfold bind at 1.
      unfold utcnow at 1.
      destruct (PyParse.sqlite_int port); reflexivity.
    - unfold Handlers.remove_proxy. rewrite after_subscription.
      destruct (negb (PyStr.truthy args)); [reflexivity|].
      destruct (PyParse.int _ _) as [proxy_id|]; [|reflexivity].
      unfold bind at 1. unfold Handlers.db_remove_proxy.
      destruct (PyParse.sqlite_int proxy_id); [|reflexivity].
      unfold Handlers.transact. cbn [fst snd].
      destruct (fst (Database.remove_proxy _ _)); cbn [snd db];
        apply remove_proxy_frame. }
  unfold Database.list_subscribers. rewrite H.
  split; [reflexivity|]. apply subscribed_member.
Qed.

Lemma added_domain_found name st :
  exists r,
    Database.get_domain name (Database.add_domain name st) = Some r
    /\ d_name r = Database._normalize_domain name.
Proof.
  unfold Database.get_domain, Database.add_domain.
  set (key := Database._normalize_domain name).
  destruct (existsb (fun r => String.eqb (d_name r) key) (domains st)) eqn:E.
  - destruct (find_some_existsb _ _ E) as (r & Hf & Hr).
    exists r. split; [exact Hf | now apply String.eqb_eq].
  - apply find_none_existsb in E. cbn [domains].
    rewrite find_app, E. cbn. rewrite String.eqb_refl.
    eexists. split; reflexivity.
Qed.

Lemma find_map_same {A} (g : A -> bool) (f : A -> A) rows :
  (forall x, g (f x) = g x) ->
  find g (map f rows) = option_map f (find g rows).
Proof.
  intros Hg. induction rows as [|x rows IH]; cbn; [reflexivity|].
  rewrite Hg. now destruct (g x).
Qed.

(** The row a check wrote is the row its name finds. *)
Lemma get_written_domain name record is_up error env w :
  Database.get_domain name (db w) = Some record ->
  Database.get_domain name (db (Check.written record is_up error env w))
  = Some (mkDomain (d_id record) (d_name record)
            (Some (Check.status_of is_up)) error
            (Some (clock env (clock_reads w)))).
Proof.
  unfold Database.get_domain, Check.written. cbn [db domains].
  unfold Database.log_check, Database.update_domain_status, set_domains.
  cbn [domains]. intros Hf.
  rewrite find_map_same, Hf; cbn [option_map].
  - now rewrite Z.eqb_refl.
  - intros x. now destruct (d_id x =? d_id record).
Qed.

Lemma force_check_run chat_id args env w :
  PyStr.truthy args = true ->
  locked w = false ->
  Handlers.force_check chat_id args env w
  = match Database.get_domain
            (BotService._normalize_domain (PyStr.or_default args ""))
            (db (Handlers.subscribed chat_id env w)) with
    | None =>
        (Returns Handlers.not_found_text, Handlers.subscribed chat_id env w)
    | Some record =>
        match DomainChecker._check_domain_record record false env
                (set_locked true (Handlers.subscribed chat_id env w)) with
        | (Returns (is_up, error), w1) =>
            (Returns
               (if is_up : bool
                then Handlers.up_text
                       (BotService._normalize_domain (PyStr.or_default args ""))
                else Handlers.down_text
                       (BotService._normalize_domain (PyStr.or_default args ""))
                       error),
             set_locked false w1)
        | (Raises e, w1) =>
            (if PyExc.isinstance e ValueError
             then Returns Handlers.not_found_text else Raises e,
             set_locked false w1)
        | (Waits, w1) => (Waits, w1)
        end
    end.
Proof.
  intros Ht Hl. unfold Handlers.force_check. rewrite after_subscription, Ht.
  cbn [negb].
  set (domain := BotService._normalize_domain _).
  set (w0 := Handlers.subscribed chat_id env w).
  unfold bind at 1. unfold try_except. unfold bind at 1.
  rewrite (check_domain_by_name_run env domain w0 Hl).
  destruct (Database.get_domain domain (db w0)) as [record|]; [|reflexivity].
  destruct (DomainChecker._check_domain_record record false env
              (set_locked true w0)) as [[[is_up error]|e|] w1].
  - cbn. now destruct is_up.
  - now destruct (PyExc.isinstance e ValueError).
  - reflexivity.
Qed.

Lemma add_domain_run chat_id args env w :
  PyStr.truthy args = true ->
  Handlers.add_domain chat_id args env w
  = (Returns ("Домен <b>"
                ++ BotService._normalize_domain (PyStr.or_default args "")
                ++ "</b> добавлен.")%string,
     mkWorld (Database.add_domain
                (BotService._normalize_domain (PyStr.or_default args ""))
                (Database.add_subscriber (clock env (clock_reads w)) chat_id
                   (db w)))
             (locked w) (S (clock_reads w)) (draws w) (requests w) (trace w)).
Proof.
  intros Ht. unfold Handlers.add_domain. rewrite after_subscription, Ht.
  reflexivity.
Qed.

Lemma uncaught_not_caught e :
  Probe.handled e = false -> Probe.caught (Failure e) = false.
Proof.
  intros He. cbn. rewrite He. cbn.
  destruct (Probe.tls_failure e) eqn:Et; [|reflexivity].
  apply tls_failure_handled in Et. congruence.
Qed.

(** X20: a domain added with [/add_domain] is found by [/check] with the
    same arguments: with the lock free and a network whose failures
    [_perform_check] catches, the reply is never "not found" but the
    "available" or the "unavailable" text for the name the handler
    normalized; the row that name finds then holds the status and the error
    of the reply, the lock is free again, and nothing was broadcast. *)
Theorem added_domain_can_be_checked (chat_id checker_chat : Z)
    (args : option string) (env : Env) (w : World) :
  PyStr.truthy args = true ->
  locked w = false ->
  Batch.all_caught env ->
  exists w1 w2 is_up error r,
    Handlers.add_domain chat_id args env w
    = (Returns ("Домен <b>"
                  ++ BotService._normalize_domain (PyStr.or_default args "")
                  ++ "</b> добавлен.")%string, w1)
    /\ Handlers.force_check checker_chat args env w1
       = (Returns
            (if is_up : bool
             then Handlers.up_text
                    (BotService._normalize_domain (PyStr.or_default args ""))
             else Handlers.down_text
                    (BotService._normalize_domain (PyStr.or_default args ""))
                    error), w2)
    /\ Database.get_domain
         (BotService._normalize_domain (PyStr.or_default args "")) (db w2)
       = Some r
    /\ d_last_status r = Some (if is_up then "up" else "down")%string
    /\ d_last_error r = error
    /\ locked w2 = false
    /\ notifications (trace w2) = notifications (trace w).
Proof.
  intros Ht Hl Hnet.
  set (domain := BotService._normalize_domain (PyStr.or_default args "")).
  rewrite (add_domain_run chat_id args env w Ht). fold domain.
  set (w1 := mkWorld _ _ _ _ _ _).
  assert (Hl1 : locked w1 = false) by exact Hl.
  pose proof (force_check_run checker_chat args env w1 Ht Hl1) as Hcheck.
  fold domain in Hcheck.
  set (w0 := Handlers.subscribed checker_chat env w1) in *.
  destruct (added_domain_found domain
              (Database.add_subscriber (clock env (clock_reads w)) chat_id
                 (db w))) as (record & Hget & Hname).
  assert (Hget0 : Database.get_domain domain (db w0) = Some record).
  { unfold Database.get_domain in *. unfold w0, Handlers.subscribed.
    cbn [db].
    destruct (add_subscriber_frame (clock env (clock_reads w1)) checker_chat
                (db w1)) as (-> & _).
    exact Hget. }
  rewrite Hget0 in Hcheck.
  destruct (record_cases record false env (set_locked true w0))
    as [(is_up & error & Hrun & _)|(e & _ & Ha & He)].
  - rewrite Hrun, add_trace_nil in Hcheck.
    exists w1. eexists. exists is_up, error. eexists.
    split; [reflexivity|]. split; [exact Hcheck|].
    split; [|split; [|split; [|split]]].
    + cbn [db set_locked]. apply get_written_domain. exact Hget0.
    + cbn. now destruct is_up.
    + reflexivity.
    + reflexivity.
    + cbn [trace set_locked Check.written Probe.sent].
      rewrite !notifications_app. cbn. now rewrite !app_nil_r.
  - exfalso. pose proof (uncaught_not_caught e He) as Hc.
    unfold Probe.answer in Ha. specialize (Hnet (requests (set_locked true w0))
      (DomainChecker.target_url (d_name record))
      (Probe.proxy_url (db (set_locked true w0)))
      (Probe.user_agent env (draws (set_locked true w0)))).
    rewrite Ha in Hnet. congruence.
Qed.

Lemma added_domain_can_be_checked_witness :
  exists w1 w2 is_up error r,
    Handlers.add_domain 7 (Some "https://Example.com/"%string)
      (Scenario.answering (Response 503)) (Scenario.fresh empty_store)
    = (Returns ("Домен <b>"
                  ++ BotService._normalize_domain
                       (PyStr.or_default (Some "https://Example.com/"%string) "")
                  ++ "</b> добавлен.")%string, w1)
    /\ Handlers.force_check 8 (Some "https://Example.com/"%string)
         (Scenario.answering (Response 503)) w1
       = (Returns
            (if is_up : bool
             then Handlers.up_text
                    (BotService._normalize_domain
                       (PyStr.or_default (Some "https://Example.com/"%string) ""))
             else Handlers.down_text
                    (BotService._normalize_domain
                       (PyStr.or_default (Some "https://Example.com/"%string) ""))
                    error), w2)
    /\ Database.get_domain
         (BotService._normalize_domain
            (PyStr.or_default (Some "https://Example.com/"%string) "")) (db w2)
       = Some r
    /\ d_last_status r = Some (if is_up then "up" else "down")%string
    /\ d_last_error r = error
    /\ locked w2 = false
    /\ notifications (trace w2)
       = notifications (trace (Scenario.fresh empty_store)).
Proof.
  apply (added_domain_can_be_checked 7 8 (Some "https://Example.com/"%string)
           (Scenario.answering (Response 503)) (Scenario.fresh empty_store)).
  - reflexivity.
  - reflexivity.
  - intros n url proxy user_agent. reflexivity.
Defined.

Example add_then_check_replies :
  fst ((Handlers.add_domain 7 (Some "https://Example.com/"%string) ;;;
        Handlers.force_check 8 (Some "https://Example.com/"%string))
         (Scenario.answering (Response 503)) (Scenario.fresh empty_store))
  = Returns "❌ <b>example.com</b> недоступен: HTTP 503"%string.
Proof. reflexivity. Qed.

(** X21: [force_check] cannot tell a missing domain from a failed probe:
    when the domain is registered and the request raises an exception that
    no clause of [_perform_check] catches, the handler answers "not found"
    if the exception is a [ValueError] and lets it through otherwise; either
    way the request was made, no status and no log entry is written, and the
    lock is released. *)
Theorem check_reports_missing_on_value_error (chat_id : Z)
    (args : option string) (env : Env) (w : World) (record : DomainRow)
    (e : exn) :
  PyStr.truthy args = true ->
  locked w = false ->
  Database.get_domain
    (BotService._normalize_domain (PyStr.or_default args "")) (db w)
  = Some record ->
  Probe.answer (d_name record) env w = Failure e ->
  Probe.handled e = false ->
  exists w',
    Handlers.force_check chat_id args env w
    = (if PyExc.isinstance e ValueError
       then Returns Handlers.not_found_text else Raises e, w')
    /\ domains (db w') = domains (db w)
    /\ check_logs (db w') = check_logs (db w)
    /\ locked w' = false
    /\ requests w' = S (requests w).
Proof.
  intros Ht Hl Hget Ha He.
  rewrite (force_check_run chat_id args env w Ht Hl).
  set (domain := BotService._normalize_domain (PyStr.or_default args "")) in *.
  set (w0 := Handlers.subscribed chat_id env w).
  destruct (add_subscriber_frame (clock env (clock_reads w)) chat_id (db w))
    as (Hd & _ & Hp & _ & Hc).
  assert (Hget0 : Database.get_domain domain (db w0) = Some record).
  { unfold Database.get_domain in *. unfold w0, Handlers.subscribed.
    cbn [db]. now rewrite Hd. }
  rewrite Hget0.
  assert (Ha0 : Probe.answer (d_name record) env (set_locked true w0)
                = Failure e).
  { rewrite <- Ha. unfold Probe.answer, Probe.proxy_url.
    unfold Database.get_proxy_for_country, Database.get_active_proxy.
    cbn [db set_locked w0 Handlers.subscribed requests draws].
    now rewrite Hp. }
  destruct (record_cases record false env (set_locked true w0))
    as [(is_up & error & _ & Hcaught)|(e' & Hrun & Ha' & _)].
  - rewrite Ha0, (uncaught_not_caught e He) in Hcaught. discriminate.
  - rewrite Ha0 in Ha'. injection Ha' as <-. rewrite Hrun.
    eexists. split; [reflexivity|].
    cbn [db set_locked Probe.sent locked requests w0 Handlers.subscribed].
    repeat split; assumption.
Qed.

Lemma check_reports_missing_on_value_error_witness :
  exists w',
    Handlers.force_check 7 (Some "example.com"%string) Cases.value_error
      (Scenario.fresh Scenario.store_down)
    = (if PyExc.isinstance (mkExn ValueError "label empty or too long")
            ValueError
       then Returns Handlers.not_found_text
       else Raises (mkExn ValueError "label empty or too long"), w')
    /\ domains (db w') = domains (db (Scenario.fresh Scenario.store_down))
    /\ check_logs (db w')
       = check_logs (db (Scenario.fresh Scenario.store_down))
    /\ locked w' = false
    /\ requests w' = S (requests (Scenario.fresh Scenario.store_down)).
Proof.
  apply (check_reports_missing_on_value_error 7 (Some "example.com"%string)
           Cases.value_error (Scenario.fresh Scenario.store_down)
           Scenario.example_com_down
           (mkExn ValueError "label empty or too long"));
    reflexivity.
Defined.

Lemma filter_none_found {A} (g : A -> bool) rows :
  find g rows = None -> filter (fun x => negb (g x)) rows = rows.
Proof.
  induction rows as [|x rows IH]; cbn; [reflexivity|].
  destruct (g x); cbn; [discriminate|]. intros H. now rewrite IH.
Qed.

(** X22: [/add_domain] followed by [/remove_domain] with the same arguments
    answers "removed", leaves no row under that name, and, when the name was
    not registered before, leaves the rows of [domains] as they were. *)
Theorem add_then_remove_domain (foreign_keys : bool) (chat_id remover_chat : Z)
    (args : option string) (env : Env) (w : World) :
  PyStr.truthy args = true ->
  exists w1 w2,
    Handlers.add_domain chat_id args env w
    = (Returns ("Домен <b>"
                  ++ BotService._normalize_domain (PyStr.or_default args "")
                  ++ "</b> добавлен.")%string, w1)
    /\ Handlers.remove_domain foreign_keys remover_chat args env w1
       = (Returns ("Домен <b>"
                     ++ BotService._normalize_domain (PyStr.or_default args "")
                     ++ "</b> удалён.")%string, w2)
    /\ Database.get_domain
         (BotService._normalize_domain (PyStr.or_default args "")) (db w2)
       = None
    /\ (Database.get_domain
          (BotService._normalize_domain (PyStr.or_default args "")) (db w)
        = None ->
        domains (db w2) = domains (db w)).
Proof.
  intros Ht.
  set (domain := BotService._normalize_domain (PyStr.or_default args "")).
  rewrite (add_domain_run chat_id args env w Ht). fold domain.
  set (st1 := Database.add_domain domain _).
  set (w1 := mkWorld _ _ _ _ _ _).
  exists w1.
  unfold Handlers.remove_domain. rewrite after_subscription, Ht. cbn [negb].
  fold domain. unfold bind, Handlers.transact. cbn [fst snd].
  set (st2 := db (Handlers.subscribed remover_chat env w1)).
  assert (Hdom2 : domains st2 = domains st1).
  { unfold st2, Handlers.subscribed. cbn [db]. apply add_subscriber_frame. }
  destruct (added_domain_found domain
              (Database.add_subscriber (clock env (clock_reads w)) chat_id
                 (db w))) as (record & Hget & Hname).
  fold st1 in Hget.
  assert (Hrem : fst (Database.remove_domain foreign_keys domain st2) = true).
  { unfold Database.remove_domain. cbn [fst]. apply filter_nonempty_find.
    rewrite Hdom2. unfold Database.get_domain in Hget. rewrite Hget.
    discriminate. }
  rewrite Hrem. eexists. split; [reflexivity|]. split; [reflexivity|].
  cbn [db]. split.
  - unfold Database.remove_domain, Database.get_domain. cbn [snd domains].
    apply (find_filter_out
             (fun r => String.eqb (d_name r)
                         (Database._normalize_domain domain))).
  - intros Hnone. unfold Database.remove_domain. cbn [snd domains].
    rewrite Hdom2. unfold st1, Database.add_domain.
    destruct (add_subscriber_frame (clock env (clock_reads w)) chat_id (db w))
      as (Hd & _).
    rewrite Hd. unfold Database.get_domain in Hnone.
    set (key := Database._normalize_domain domain) in *.
    assert (Hex : existsb (fun r => String.eqb (d_name r) key)
                    (domains (db w)) = false).
    { destruct (existsb _ _) eqn:E; [|reflexivity].
      destruct (find_some_existsb _ _ E) as (r & Hf & _). congruence. }
    rewrite Hex. cbn [domains]. rewrite filter_app. cbn.
    rewrite String.eqb_refl. cbn. rewrite app_nil_r.
    now apply filter_none_found.
Qed.

Lemma add_then_remove_domain_witness :
  exists w1 w2,
    Handlers.add_domain 7 (Some "Other.org"%string)
      (Scenario.answering (Response 200)) (Scenario.fresh Scenario.store_down)
    = (Returns ("Домен <b>"
                  ++ BotService._normalize_domain
                       (PyStr.or_default (Some "Other.org"%string) "")
                  ++ "</b> добавлен.")%string, w1)
    /\ Handlers.remove_domain false 8 (Some "Other.org"%string)
         (Scenario.answering (Response 200)) w1
       = (Returns ("Домен <b>"
                     ++ BotService._normalize_domain
                          (PyStr.or_default (Some "Other.org"%string) "")
                     ++ "</b> удалён.")%string, w2)
    /\ Database.get_domain
         (BotService._normalize_domain
            (PyStr.or_default (Some "Other.org"%string) "")) (db w2)
       = None
    /\ (Database.get_domain
          (BotService._normalize_domain
             (PyStr.or_default (Some "Other.org"%string) ""))
          (db (Scenario.fresh Scenario.store_down))
        = None ->
        domains (db w2) = domains (db (Scenario.fresh Scenario.store_down))).
Proof.
  apply (add_then_remove_domain false 7 8 (Some "Other.org"%string)
           (Scenario.answering (Response 200))
           (Scenario.fresh Scenario.store_down)).
  reflexivity.
Defined.

End HandlerFacts.

(** ** Reading the arguments of the proxy commands *)

Section ParseFacts.
















End ParseFacts.

(** ** The proxy commands *)

Section ProxyCommandFacts.

Local Open Scope list_scope.










Example proxy_commands_run :
  fst ((Handlers.add_proxy 4300 7 (Some "10.0.0.9  3128 u p TR"%string) ;;;
        Handlers.remove_proxy 4300 7 (Some " 4 "%string))
         (Scenario.answering (Response 200)) Cases.with_pool)
  = Returns "Прокси удалён."%string
  /\ fst (Handlers.add_proxy 4300 7 (Some "10.0.0.9 http"%string)
            (Scenario.answering (Response 200)) Cases.with_pool)
     = Returns "Порт должен быть числом."%string
  /\ fst (Handlers.add_proxy 4300 7 (Some "10.0.0.9 9223372036854775808"%string)
            (Scenario.answering (Response 200)) Cases.with_pool)
     = Raises PyParse.overflow.
Proof. repeat split. Qed.

End ProxyCommandFacts.
